(** * O2 primary server and simulation worker: chunk-serving protocol

    A shallow embedding of the two FairMQ devices of the O2 simulation
    framework:

    - [O2PrimaryServerDevice] (src/run/O2PrimaryServerDevice.h), the producer
      which generates events and serves them in chunks of primaries;
    - [O2SimDevice] (the worker), which polls the server status, requests a
      chunk and hands it to the transport engine.

    Conventions of the embedding.

    - A C++ [int] is a [Z]; every place where the source converts to [int]
      or computes in [int] is written with [to_int] (two's complement
      reduction to 32 bits).  [size_t] arithmetic is reduced with
      [to_size_t] (64 bits).
    - The generator thread [mGeneratorThread] is a field holding the job of
      the thread while the thread is joinable.  The job's effect on the
      device takes place when the thread is joined.  The request path of
      the source reads the stack only after joining, so it observes
      the same values.
    - External collaborators (event generators, the random seed helper,
      the transport engine) are operations of the class [External].
    - Calls which the C++ runtime aborts or leaves undefined are faults:
      assigning to a joinable [std::thread] calls [std::terminate], indexing
      a vector outside its bounds is undefined. *)

From Stdlib Require Import ZArith Lia.
From stdpp Require Import gmap strings list.

Open Scope Z_scope.

(** ** Machine integers *)

Definition INT_MAX : Z := 2147483647.
Definition INT_MIN : Z := -2147483648.

(** Conversion to a 32 bit [int]. *)
Definition to_int (z : Z) : Z := (z + 2147483648) mod 4294967296 - 2147483648.

(** Conversion to a 64 bit [size_t]. *)
Definition to_size_t (z : Z) : Z := z mod 18446744073709551616.

Definition int_range (z : Z) : Prop := INT_MIN <= z <= INT_MAX.

(** Equality modulo 2^32. *)
Definition eqm32 (a b : Z) : Prop := a mod 4294967296 = b mod 4294967296.

(** ** Chunk arithmetic of [HandleRequest] *)

(** [std::ceil(n / (1. * g))]: the quotient is computed in double precision.
    For [n < 2^53] and [1 <= g < 2^31] both operands are exact and a
    quotient which is not an integer lies at least [1/g] above the integer
    below it, more than half a unit in the last place, so that the rounded
    quotient has the same ceiling as the exact one. *)
Definition ceil_div (n g : Z) : Z := - ((- n) / g).

(** Lines 334-336: [numberofparts]. *)
Definition numberofparts (n g : Z) : Z := Z.max 1 (to_int (ceil_div n g)).

(** Line 352: [int endindex = prims.size() - mPartCounter * mChunkGranularity].
    The product is an [int], converted to [size_t] for the subtraction, and
    the difference is converted back to [int]. *)
Definition endindex0 (n p g : Z) : Z :=
  to_int (to_size_t (n - to_size_t (to_int (p * g)))).

(** Line 353: [int startindex = prims.size() - (mPartCounter + 1) * mChunkGranularity]. *)
Definition startindex0 (n p g : Z) : Z :=
  to_int (to_size_t (n - to_size_t (to_int (to_int (p + 1) * g)))).

(** Lines 356-361: negative bounds are raised to 0. *)
Definition clamp0 (i : Z) : Z := if i <? 0 then 0 else i.

Definition startindex (n p g : Z) : Z := clamp0 (startindex0 n p g).
Definition endindex (n p g : Z) : Z := clamp0 (endindex0 n p g).

(** Lines 363-365: the copy loop
    [for (int index = startindex; index < endindex; ++index)
       m.mParticles.emplace_back(prims[index]);]
    run for the [Z.to_nat (endindex - startindex)] iterations it makes.
    [None] is a read outside the vector. *)
Fixpoint copy_loop {A} (prims : list A) (index : Z) (iterations : nat)
    (mParticles : list A) : option (list A) :=
  match iterations with
  | O => Some mParticles
  | S k =>
      if index <? 0 then None
      else match prims !! Z.to_nat index with
           | Some p => copy_loop prims (to_int (index + 1)) k (mParticles ++ [p])
           | None => None
           end
  end.

Definition copy_range {A} (prims : list A) (startindex endindex : Z)
    : option (list A) :=
  copy_loop prims startindex (Z.to_nat (endindex - startindex)) [].

(** ** Data model *)

(** Modelled from the spec: the enumeration [O2PrimaryServerState] is
    declared in PrimaryServerState.h, which is not among the source files.
    The states are those of the specification's ProtocolState, under the
    names the two devices use.  Their integer codes are a parameter of the
    worker ([state_code] below). *)
Inductive O2PrimaryServerState :=
| Initializing | ReadyToServe | WaitingEvent | Idle | Stopped.

(** Modelled from the spec: [o2::conf::SimConfigData] (the RunConfig of the
    specification) is declared in SimConfig.h, which is not among the source
    files.  These are the fields which the server reads or writes. *)
Record SimConfigData := {
  mGenerator : string;
  mTrigger : string;
  mExtKinFileName : string;
  mEmbedIntoFileName : string;
  mNEvents : Z
}.

(** Modelled from the spec: [o2::conf::SimReconfigData] (the ReconfigRequest
    of the specification), declared in SimConfig.h, under the field names
    [ReInit] uses. *)
Record SimReconfigData := {
  stop : bool;
  configFile : string;
  keyValueTokens : string;
  startSeed : Z;
  nEvents : Z;
  generator : string;
  trigger : string;
  extKinfileName : string
}.

(** External collaborators of the server. *)
Class External := {
  Primary : Type;                (* TParticle *)
  MCEventHeader : Type;          (* o2::dataformats::MCEventHeader *)
  PrimaryGenerator : Type;       (* the state of an o2::eventgen::PrimaryGenerator *)
  emptyHeader : MCEventHeader;   (* a default constructed header *)
  newPrimaryGenerator : PrimaryGenerator;
  setPrimaryGenerator : SimConfigData -> PrimaryGenerator -> PrimaryGenerator;
  embedInto : string -> PrimaryGenerator -> PrimaryGenerator;
  Init : PrimaryGenerator -> PrimaryGenerator;
  (* GenerateEvent fills the stack and the event header set with SetEvent *)
  GenerateEvent : PrimaryGenerator -> list Primary * MCEventHeader * PrimaryGenerator;
  (* o2::utils::RngHelper::setGRandomSeed returns the seed it has set *)
  setGRandomSeed : Z -> Z
}.

(** What a joinable [mGeneratorThread] is running. *)
Inductive ThreadJob := JobInitGenerator | JobGenerateEvent.

Inductive fault :=
| Terminate    (* std::terminate called *)
| Undefined.   (* null or dangling pointer, index out of bounds *)

Inductive result (A : Type) :=
| Ok (a : A)
| Fault (f : fault).
Arguments Ok {A} a.
Arguments Fault {A} f.

Section Server.
Context `{External}.

(** Modelled from the spec: [o2::data::SubEventInfo] is declared in
    PrimaryChunk.h, which is not among the source files.  The fields are
    those of the specification's SubEventInfo under the names [HandleRequest]
    uses ([index] is its startIndex). *)
Record SubEventInfo := {
  eventID : Z;
  maxEvents : Z;
  part : Z;
  nparts : Z;
  seed : Z;
  index : Z;
  mMCEventHeader : MCEventHeader
}.

(** Modelled from the spec: [o2::data::PrimaryChunk] (the Chunk of the
    specification), declared in PrimaryChunk.h. *)
Record PrimaryChunk := {
  mSubEventInfo : SubEventInfo;
  mParticles : list Primary
}.

(** The decoded payload of a message given to [Send]. *)
Inductive Message :=
| ConfigReply (confdata : SimConfigData)
| ChunkReply (m : PrimaryChunk).

(** What the server does to the outside. *)
Inductive Output :=
| Sent (message : Message)        (* Send(message, "primary-get", ...) *)
| PipeWrite (value : Z)           (* write(mPipeToDriver, ...) *)
| Published (text : string).      (* publishMessage on primary-notifications;
                                     the layout of status strings is not modelled *)

(** The members of [O2PrimaryServerDevice].  [generators] is the memory
    holding the generator objects made with [new]; a pointer is a position
    in it. *)
Record Device := {
  mSimConfig : SimConfigData;
  mPrimGen : option nat;
  mEventHeader : MCEventHeader;
  mStack : list Primary;
  mChunkGranularity : Z;
  mPartCounter : Z;
  mNeedNewEvent : bool;
  mMaxEvents : Z;
  mInitialSeed : Z;
  mPipeToDriver : Z;
  mEventCounter : Z;
  mGeneratorThread : option ThreadJob;
  mPrimGeneratorCache : gmap string nat;
  mState : O2PrimaryServerState;
  mAsService : bool;
  generators : list PrimaryGenerator
}.

Definition set_mSimConfig (v : SimConfigData) (d : Device) : Device :=
  {| mSimConfig := v; mPrimGen := mPrimGen d; mEventHeader := mEventHeader d;
     mStack := mStack d; mChunkGranularity := mChunkGranularity d;
     mPartCounter := mPartCounter d; mNeedNewEvent := mNeedNewEvent d;
     mMaxEvents := mMaxEvents d; mInitialSeed := mInitialSeed d;
     mPipeToDriver := mPipeToDriver d; mEventCounter := mEventCounter d;
     mGeneratorThread := mGeneratorThread d;
     mPrimGeneratorCache := mPrimGeneratorCache d; mState := mState d;
     mAsService := mAsService d; generators := generators d |}.

Definition set_mPrimGen (v : option nat) (d : Device) : Device :=
  {| mSimConfig := mSimConfig d; mPrimGen := v; mEventHeader := mEventHeader d;
     mStack := mStack d; mChunkGranularity := mChunkGranularity d;
     mPartCounter := mPartCounter d; mNeedNewEvent := mNeedNewEvent d;
     mMaxEvents := mMaxEvents d; mInitialSeed := mInitialSeed d;
     mPipeToDriver := mPipeToDriver d; mEventCounter := mEventCounter d;
     mGeneratorThread := mGeneratorThread d;
     mPrimGeneratorCache := mPrimGeneratorCache d; mState := mState d;
     mAsService := mAsService d; generators := generators d |}.

Definition set_mEventHeader (v : MCEventHeader) (d : Device) : Device :=
  {| mSimConfig := mSimConfig d; mPrimGen := mPrimGen d; mEventHeader := v;
     mStack := mStack d; mChunkGranularity := mChunkGranularity d;
     mPartCounter := mPartCounter d; mNeedNewEvent := mNeedNewEvent d;
     mMaxEvents := mMaxEvents d; mInitialSeed := mInitialSeed d;
     mPipeToDriver := mPipeToDriver d; mEventCounter := mEventCounter d;
     mGeneratorThread := mGeneratorThread d;
     mPrimGeneratorCache := mPrimGeneratorCache d; mState := mState d;
     mAsService := mAsService d; generators := generators d |}.

Definition set_mStack (v : list Primary) (d : Device) : Device :=
  {| mSimConfig := mSimConfig d; mPrimGen := mPrimGen d;
     mEventHeader := mEventHeader d;
     mStack := v; mChunkGranularity := mChunkGranularity d;
     mPartCounter := mPartCounter d; mNeedNewEvent := mNeedNewEvent d;
     mMaxEvents := mMaxEvents d; mInitialSeed := mInitialSeed d;
     mPipeToDriver := mPipeToDriver d; mEventCounter := mEventCounter d;
     mGeneratorThread := mGeneratorThread d;
     mPrimGeneratorCache := mPrimGeneratorCache d; mState := mState d;
     mAsService := mAsService d; generators := generators d |}.

Definition set_mPartCounter (v : Z) (d : Device) : Device :=
  {| mSimConfig := mSimConfig d; mPrimGen := mPrimGen d;
     mEventHeader := mEventHeader d;
     mStack := mStack d; mChunkGranularity := mChunkGranularity d;
     mPartCounter := v; mNeedNewEvent := mNeedNewEvent d;
     mMaxEvents := mMaxEvents d; mInitialSeed := mInitialSeed d;
     mPipeToDriver := mPipeToDriver d; mEventCounter := mEventCounter d;
     mGeneratorThread := mGeneratorThread d;
     mPrimGeneratorCache := mPrimGeneratorCache d; mState := mState d;
     mAsService := mAsService d; generators := generators d |}.

Definition set_mNeedNewEvent (v : bool) (d : Device) : Device :=
  {| mSimConfig := mSimConfig d; mPrimGen := mPrimGen d;
     mEventHeader := mEventHeader d;
     mStack := mStack d; mChunkGranularity := mChunkGranularity d;
     mPartCounter := mPartCounter d; mNeedNewEvent := v;
     mMaxEvents := mMaxEvents d; mInitialSeed := mInitialSeed d;
     mPipeToDriver := mPipeToDriver d; mEventCounter := mEventCounter d;
     mGeneratorThread := mGeneratorThread d;
     mPrimGeneratorCache := mPrimGeneratorCache d; mState := mState d;
     mAsService := mAsService d; generators := generators d |}.

Definition set_mMaxEvents (v : Z) (d : Device) : Device :=
  {| mSimConfig := mSimConfig d; mPrimGen := mPrimGen d;
     mEventHeader := mEventHeader d;
     mStack := mStack d; mChunkGranularity := mChunkGranularity d;
     mPartCounter := mPartCounter d; mNeedNewEvent := mNeedNewEvent d;
     mMaxEvents := v; mInitialSeed := mInitialSeed d;
     mPipeToDriver := mPipeToDriver d; mEventCounter := mEventCounter d;
     mGeneratorThread := mGeneratorThread d;
     mPrimGeneratorCache := mPrimGeneratorCache d; mState := mState d;
     mAsService := mAsService d; generators := generators d |}.

Definition set_mInitialSeed (v : Z) (d : Device) : Device :=
  {| mSimConfig := mSimConfig d; mPrimGen := mPrimGen d;
     mEventHeader := mEventHeader d;
     mStack := mStack d; mChunkGranularity := mChunkGranularity d;
     mPartCounter := mPartCounter d; mNeedNewEvent := mNeedNewEvent d;
     mMaxEvents := mMaxEvents d; mInitialSeed := v;
     mPipeToDriver := mPipeToDriver d; mEventCounter := mEventCounter d;
     mGeneratorThread := mGeneratorThread d;
     mPrimGeneratorCache := mPrimGeneratorCache d; mState := mState d;
     mAsService := mAsService d; generators := generators d |}.

Definition set_mEventCounter (v : Z) (d : Device) : Device :=
  {| mSimConfig := mSimConfig d; mPrimGen := mPrimGen d;
     mEventHeader := mEventHeader d;
     mStack := mStack d; mChunkGranularity := mChunkGranularity d;
     mPartCounter := mPartCounter d; mNeedNewEvent := mNeedNewEvent d;
     mMaxEvents := mMaxEvents d; mInitialSeed := mInitialSeed d;
     mPipeToDriver := mPipeToDriver d; mEventCounter := v;
     mGeneratorThread := mGeneratorThread d;
     mPrimGeneratorCache := mPrimGeneratorCache d; mState := mState d;
     mAsService := mAsService d; generators := generators d |}.

Definition set_mGeneratorThread (v : option ThreadJob) (d : Device) : Device :=
  {| mSimConfig := mSimConfig d; mPrimGen := mPrimGen d;
     mEventHeader := mEventHeader d;
     mStack := mStack d; mChunkGranularity := mChunkGranularity d;
     mPartCounter := mPartCounter d; mNeedNewEvent := mNeedNewEvent d;
     mMaxEvents := mMaxEvents d; mInitialSeed := mInitialSeed d;
     mPipeToDriver := mPipeToDriver d; mEventCounter := mEventCounter d;
     mGeneratorThread := v;
     mPrimGeneratorCache := mPrimGeneratorCache d; mState := mState d;
     mAsService := mAsService d; generators := generators d |}.

Definition set_mPrimGeneratorCache (v : gmap string nat) (d : Device) : Device :=
  {| mSimConfig := mSimConfig d; mPrimGen := mPrimGen d;
     mEventHeader := mEventHeader d;
     mStack := mStack d; mChunkGranularity := mChunkGranularity d;
     mPartCounter := mPartCounter d; mNeedNewEvent := mNeedNewEvent d;
     mMaxEvents := mMaxEvents d; mInitialSeed := mInitialSeed d;
     mPipeToDriver := mPipeToDriver d; mEventCounter := mEventCounter d;
     mGeneratorThread := mGeneratorThread d;
     mPrimGeneratorCache := v; mState := mState d;
     mAsService := mAsService d; generators := generators d |}.

Definition set_mState (v : O2PrimaryServerState) (d : Device) : Device :=
  {| mSimConfig := mSimConfig d; mPrimGen := mPrimGen d;
     mEventHeader := mEventHeader d;
     mStack := mStack d; mChunkGranularity := mChunkGranularity d;
     mPartCounter := mPartCounter d; mNeedNewEvent := mNeedNewEvent d;
     mMaxEvents := mMaxEvents d; mInitialSeed := mInitialSeed d;
     mPipeToDriver := mPipeToDriver d; mEventCounter := mEventCounter d;
     mGeneratorThread := mGeneratorThread d;
     mPrimGeneratorCache := mPrimGeneratorCache d; mState := v;
     mAsService := mAsService d; generators := generators d |}.

Definition set_generators (v : list PrimaryGenerator) (d : Device) : Device :=
  {| mSimConfig := mSimConfig d; mPrimGen := mPrimGen d;
     mEventHeader := mEventHeader d;
     mStack := mStack d; mChunkGranularity := mChunkGranularity d;
     mPartCounter := mPartCounter d; mNeedNewEvent := mNeedNewEvent d;
     mMaxEvents := mMaxEvents d; mInitialSeed := mInitialSeed d;
     mPipeToDriver := mPipeToDriver d; mEventCounter := mEventCounter d;
     mGeneratorThread := mGeneratorThread d;
     mPrimGeneratorCache := mPrimGeneratorCache d; mState := mState d;
     mAsService := mAsService d; generators := v |}.

Definition set_mChunkGranularity (v : Z) (d : Device) : Device :=
  {| mSimConfig := mSimConfig d; mPrimGen := mPrimGen d;
     mEventHeader := mEventHeader d;
     mStack := mStack d; mChunkGranularity := v;
     mPartCounter := mPartCounter d; mNeedNewEvent := mNeedNewEvent d;
     mMaxEvents := mMaxEvents d; mInitialSeed := mInitialSeed d;
     mPipeToDriver := mPipeToDriver d; mEventCounter := mEventCounter d;
     mGeneratorThread := mGeneratorThread d;
     mPrimGeneratorCache := mPrimGeneratorCache d; mState := mState d;
     mAsService := mAsService d; generators := generators d |}.

Definition set_mPipeToDriver (v : Z) (d : Device) : Device :=
  {| mSimConfig := mSimConfig d; mPrimGen := mPrimGen d;
     mEventHeader := mEventHeader d;
     mStack := mStack d; mChunkGranularity := mChunkGranularity d;
     mPartCounter := mPartCounter d; mNeedNewEvent := mNeedNewEvent d;
     mMaxEvents := mMaxEvents d; mInitialSeed := mInitialSeed d;
     mPipeToDriver := v; mEventCounter := mEventCounter d;
     mGeneratorThread := mGeneratorThread d;
     mPrimGeneratorCache := mPrimGeneratorCache d; mState := mState d;
     mAsService := mAsService d; generators := generators d |}.

Definition set_mAsService (v : bool) (d : Device) : Device :=
  {| mSimConfig := mSimConfig d; mPrimGen := mPrimGen d;
     mEventHeader := mEventHeader d;
     mStack := mStack d; mChunkGranularity := mChunkGranularity d;
     mPartCounter := mPartCounter d; mNeedNewEvent := mNeedNewEvent d;
     mMaxEvents := mMaxEvents d; mInitialSeed := mInitialSeed d;
     mPipeToDriver := mPipeToDriver d; mEventCounter := mEventCounter d;
     mGeneratorThread := mGeneratorThread d;
     mPrimGeneratorCache := mPrimGeneratorCache d; mState := mState d;
     mAsService := v; generators := generators d |}.

(** ** The monad of the server's member functions

    A member function reads and writes the device, does things to the
    outside, and either returns or faults. *)
Definition M (A : Type) : Type := Device -> result (A * list Output * Device).

#[local] Instance M_ret : MRet M := fun A a d => Ok (a, [], d).

#[local] Instance M_bind : MBind M := fun A B k m d =>
  match m d with
  | Fault f => Fault f
  | Ok (a, out1, d1) =>
      match k a d1 with
      | Fault f => Fault f
      | Ok (b, out2, d2) => Ok (b, out1 ++ out2, d2)
      end
  end.

Definition get : M Device := fun d => Ok (d, [], d).
Definition modify (f : Device -> Device) : M unit := fun d => Ok (tt, [], f d).
Definition emit (o : Output) : M unit := fun d => Ok (tt, [o], d).
Definition raise {A} (f : fault) : M A := fun _ => Fault f.

(** ** Event generation (lines 62-125) *)

(** [generateEvent]: resets the stack and lets the current generator fill
    it. *)
Definition generateEvent : M unit :=
  modify (set_mState WaitingEvent);;
  d ← get;
  match mPrimGen d with
  | None => raise Undefined
  | Some p =>
      match generators d !! p with
      | None => raise Undefined
      | Some g =>
          let '(prims, header, g') := GenerateEvent g in
          modify (set_generators (<[p := g']> (generators d)));;
          modify (set_mStack prims);;
          modify (set_mEventHeader header);;
          modify (set_mState ReadyToServe)
      end
  end.

(** Line 85: [conf.getGenerator().compare("extkin") != 0 ||
    conf.getGenerator().compare("extkinO2") != 0]. *)
Definition lookup_guard (name : string) : bool :=
  negb (String.eqb name "extkin") || negb (String.eqb name "extkinO2").

(** [initGenerator]: finds the generator of the configured name in the
    cache or makes a new one and stores it there, then generates the first
    event.  (The set-up of the global magnetic field is not modelled.) *)
Definition initGenerator : M unit :=
  modify (set_mState Initializing);;
  conf ← (d ← get; mret (mSimConfig d));
  modify (set_mPrimGen None);;
  (if lookup_guard (mGenerator conf) then
     d ← get;
     match mPrimGeneratorCache d !! mGenerator conf with
     | Some p => modify (set_mPrimGen (Some p))
     | None => mret tt
     end
   else mret tt);;
  d ← get;
  match mPrimGen d with
  | None =>
      let p := length (generators d) in
      let g := setPrimaryGenerator conf newPrimaryGenerator in
      let g := if String.eqb (mEmbedIntoFileName conf) ""
               then g else embedInto (mEmbedIntoFileName conf) g in
      let g := Init g in
      modify (set_generators (generators d ++ [g]));;
      modify (set_mPrimGen (Some p));;
      modify (set_mPrimGeneratorCache (<[mGenerator conf := p]> (mPrimGeneratorCache d)))
  | Some _ => mret tt
  end;;
  generateEvent.

(** ** The generator thread *)

Definition run_job (job : ThreadJob) : M unit :=
  match job with
  | JobInitGenerator => initGenerator
  | JobGenerateEvent => generateEvent
  end.

(** [mGeneratorThread = std::thread(...)]: move assignment to a joinable
    thread calls [std::terminate]. *)
Definition launch (job : ThreadJob) : M unit :=
  d ← get;
  match mGeneratorThread d with
  | Some _ => raise Terminate
  | None => modify (set_mGeneratorThread (Some job))
  end.

(** [if (mGeneratorThread.joinable()) mGeneratorThread.join();] *)
Definition join_if_joinable : M unit :=
  d ← get;
  match mGeneratorThread d with
  | Some job => run_job job;; modify (set_mGeneratorThread None)
  | None => mret tt
  end.

(** ** Start-up (lines 154-213 and the member initialisers, lines 437-461) *)

(** The parsed start-up options [vm] and the environment of [InitTask].
    The numbers are the values given; [InitTask] stores them in [int]
    members. *)
Record Options := {
  opt_chunkSize : Z;
  opt_seed : Z;
  opt_asservice : bool;
  opt_conf : SimConfigData;
  opt_pipe : option Z      (* ALICE_O2SIMSERVERTODRIVER_PIPE as a number, if set *)
}.

(** The device after construction; [instance] is [SimConfig::Instance()]. *)
Definition O2PrimaryServerDevice (instance : SimConfigData) : Device :=
  {| mSimConfig := instance; mPrimGen := None; mEventHeader := emptyHeader;
     mStack := []; mChunkGranularity := 500; mPartCounter := 0;
     mNeedNewEvent := true; mMaxEvents := 2; mInitialSeed := -1;
     mPipeToDriver := -1; mEventCounter := 0; mGeneratorThread := None;
     mPrimGeneratorCache := ∅; mState := Initializing; mAsService := false;
     generators := [] |}.

(** [InitTask].  Every value stored in an [int] member is converted to
    [int]: the chunk size (line 185), the seed and the seed which the random
    number helper returns (lines 189-190), the number of events (line 193)
    and the pipe handle (line 206). *)
Definition InitTask (vm : Options) : M unit :=
  emit (Published "SERVER : INITIALIZING");;
  modify (set_mState Initializing);;
  modify (set_mSimConfig (opt_conf vm));;
  modify (set_mStack []);;
  modify (set_mChunkGranularity (to_int (opt_chunkSize vm)));;
  modify (set_mInitialSeed (to_int (opt_seed vm)));;
  d ← get;
  modify (set_mInitialSeed (to_int (setGRandomSeed (mInitialSeed d))));;
  modify (set_mMaxEvents (to_int (mNEvents (opt_conf vm))));;
  launch JobInitGenerator;;
  match opt_pipe vm with
  | Some handle => modify (set_mPipeToDriver (to_int handle))
  | None => mret tt
  end;;
  modify (set_mAsService (opt_asservice vm)).

(** ** [ReInit] (lines 216-251)

    The updates of the global parameter registry from [configFile] and
    [keyValueTokens] are not modelled.  The seed (line 232), the seed which
    the random number helper returns for the stored seed (line 233) and the
    number of events (line 236) are converted to [int], the type of the
    members they are stored in. *)
Definition ReInit (reconfig : SimReconfigData) : M bool :=
  if stop reconfig then mret false
  else
    modify (set_mInitialSeed (to_int (startSeed reconfig)));;
    d ← get;
    modify (set_mInitialSeed (to_int (setGRandomSeed (mInitialSeed d))));;
    modify (set_mMaxEvents (to_int (nEvents reconfig)));;
    d ← get;
    modify (set_mSimConfig
              {| mGenerator := generator reconfig;
                 mTrigger := trigger reconfig;
                 mExtKinFileName := extKinfileName reconfig;
                 mEmbedIntoFileName := mEmbedIntoFileName (mSimConfig d);
                 mNEvents := mNEvents (mSimConfig d) |});;
    modify (set_mEventCounter 0);;
    modify (set_mPartCounter 0);;
    modify (set_mNeedNewEvent true);;
    launch JobInitGenerator;;
    mret true.

(** ** Requests (lines 254-405) *)

(** [HandleConfigRequest]: returns true whether or not the send succeeds. *)
Definition HandleConfigRequest : M bool :=
  d ← get;
  emit (Sent (ConfigReply (mSimConfig d)));;
  mret true.

(** [HandleRequest].  [requeststring] is the payload of the request and
    [code] the value returned by the [Send] of the reply. *)
Definition HandleRequest (requeststring : string) (code : Z) : M bool :=
  if String.eqb requeststring "configrequest" then HandleConfigRequest
  else if negb (String.eqb requeststring "primrequest") then
    (* unknown request: logged, nothing is sent *)
    mret true
  else
    d ← get;
    let workavailable :=
      negb ((mMaxEvents d <=? mEventCounter d) && mNeedNewEvent d) in
    (if mNeedNewEvent d then
       join_if_joinable;;
       modify (set_mNeedNewEvent false);;
       modify (set_mPartCounter 0);;
       d ← get;
       modify (set_mEventCounter (to_int (mEventCounter d + 1)))
     else mret tt);;
    d ← get;
    let prims := mStack d in
    let size := Z.of_nat (length prims) in
    let numberofparts := numberofparts size (mChunkGranularity d) in
    let i := {| eventID := if workavailable then mEventCounter d else -1;
                maxEvents := mMaxEvents d;
                part := to_int (mPartCounter d + 1);
                nparts := numberofparts;
                seed := to_int (mEventCounter d + mInitialSeed d);
                index := 0;
                mMCEventHeader := mEventHeader d |} in
    particles ←
      (if workavailable then
         match copy_range prims
                 (startindex size (mPartCounter d) (mChunkGranularity d))
                 (endindex size (mPartCounter d) (mChunkGranularity d)) with
         | None => raise Undefined
         | Some particles =>
             (if negb (mPipeToDriver d =? -1) && (part i =? 1) && workavailable
              then emit (PipeWrite (mEventCounter d)) else mret tt);;
             modify (set_mPartCounter (to_int (mPartCounter d + 1)));;
             (if to_int (mPartCounter d + 1) =? numberofparts then
                modify (set_mNeedNewEvent true);;
                launch JobGenerateEvent
              else mret tt);;
             mret particles
         end
       else mret []);
    emit (Sent (ChunkReply {| mSubEventInfo := i; mParticles := particles |}));;
    if 0 <? code then mret workavailable else mret false.

(** [waitForControlInput].  [control] is the reconfiguration parsed from the
    message received on the control channel, if one was received. *)
Definition waitForControlInput (control : option SimReconfigData) : M bool :=
  emit (Published "PRIMSERVER STATUS AWAITING INPUT");;
  match control with
  | Some reconfig => ReInit reconfig
  | None => mret false
  end.

(** [ConditionalRun].  [request] is [None] when the receive fails. *)
Definition ConditionalRun (request : option string) (code : Z)
    (control : option SimReconfigData) : M bool :=
  match request with
  | None => mret true
  | Some requeststring =>
      more ← HandleRequest requeststring code;
      more ← (if negb more then
                modify (set_mState Idle);;
                d ← get;
                if mAsService d then waitForControlInput control else mret more
              else mret more);
      (if negb more then modify (set_mState Stopped)
       else modify (set_mState ReadyToServe));;
      mret more
  end.

(** ** Serving one event

    [serveEvent fuel codes d] handles "primrequest" after "primrequest",
    starting in [d], until a request leaves the device with [mNeedNewEvent]
    set, i.e. until the current event has been served completely.  It
    returns the chunks sent, in the order of the requests, and the device
    afterwards.  [codes n] is the return code of the n-th send. *)
Definition sent_chunks (out : list Output) : list PrimaryChunk :=
  omap (fun o => match o with Sent (ChunkReply m) => Some m | _ => None end) out.

Fixpoint serveEvent (fuel : nat) (codes : nat -> Z) (d : Device)
    : option (list PrimaryChunk * Device) :=
  match fuel with
  | O => None
  | S fuel' =>
      match HandleRequest "primrequest" (codes O) d with
      | Fault _ => None
      | Ok (_, out, d') =>
          if mNeedNewEvent d' then Some (sent_chunks out, d')
          else
            match serveEvent fuel' (fun n => codes (S n)) d' with
            | Some (chunks, d'') => Some (sent_chunks out ++ chunks, d'')
            | None => None
            end
      end
  end.

(** The end-of-work sentinel: no particles and [eventID == -1]. *)
Definition is_sentinel (m : PrimaryChunk) : bool :=
  (Z.of_nat (length (mParticles m)) =? 0) && (eventID (mSubEventInfo m) =? -1).

End Server.

(** ** The worker [O2SimDevice] *)

Section Worker.
Context `{External}.

(** The integer value of each enumerator of [O2PrimaryServerState], as the
    casts [(int)o2::O2PrimaryServerState::...] give it. *)
Variable state_code : O2PrimaryServerState -> Z.

(** [isWorkAvailable] (lines 146-183).  [sendcode] and [code] are the
    values returned by the send of the probe and by the receive of the
    answer, [state] is the integer read from the answer. *)
Definition isWorkAvailable (sendcode code state : Z) : bool :=
  if 0 <? sendcode then
    if 0 <? code then
      if state =? state_code ReadyToServe then true
      else if state =? state_code Initializing then true
      else if state =? state_code WaitingEvent then true
      else if state =? state_code Idle then false
      else false
    else false
  else false.

(** What is observed on a status channel during one poll. *)
Record StatusPoll := {
  poll_sendcode : Z;
  poll_code : Z;
  poll_state : Z
}.

(** The calls the kernel makes on the Monte Carlo application and engine. *)
Inductive AppCall :=
| setSimDataChannel
| setPrimaries (particles : list Primary)
| setSubEventInfo (info : SubEventInfo)
| SetSeed (seed : Z)
| ProcessEvent
| ProcessRun (nevents : Z).

(** What the kernel does with a chunk which is not the sentinel
    (lines 240-260). *)
Definition process_chunk (mcEngine : string) (chunk : PrimaryChunk) : list AppCall :=
  [ setPrimaries (mParticles chunk);
    setSubEventInfo (mSubEventInfo chunk);
    SetSeed (seed (mSubEventInfo chunk));
    if String.eqb mcEngine "TGeant4" then ProcessEvent else ProcessRun 1 ].

(** The receive loop of [Kernel] (lines 222-272):
    [do { ... } while (code == -1 && trial <= 2)].  [Receive k] is the
    return code of the k-th receive and the chunk decoded from the reply.
    [fuel] bounds the iterations; 3 are enough (see [receive_loop_fuel]). *)
Fixpoint receive_loop (fuel : nat) (mcEngine : string)
    (Receive : nat -> Z * PrimaryChunk) (trial : nat) : bool * list AppCall :=
  match fuel with
  | O => (true, [])
  | S fuel' =>
      let '(code, chunk) := Receive trial in
      let trial := S trial in
      if 0 <? code then
        if is_sentinel chunk then (false, [])
        else
          let calls := process_chunk mcEngine chunk in
          if (code =? -1) && (Z.of_nat trial <=? 2) then
            let '(more, calls') := receive_loop fuel' mcEngine Receive trial in
            (more, calls ++ calls')
          else (true, calls)
      else
        if (code =? -1) && (Z.of_nat trial <=? 2) then
          receive_loop fuel' mcEngine Receive trial
        else (true, [])
  end.

(** [Kernel] (lines 185-278).  [statuschannel] is [None] for the null
    pointer, [sendcode] is returned by the send of "primrequest". *)
Definition Kernel (statuschannel : option StatusPoll) (sendcode : Z)
    (Receive : nat -> Z * PrimaryChunk) (mcEngine : string) : bool * list AppCall :=
  let available :=
    match statuschannel with
    | Some poll => isWorkAvailable (poll_sendcode poll) (poll_code poll) (poll_state poll)
    | None => true
    end in
  if negb available then (false, [])
  else if 0 <? sendcode then
    let '(more, calls) := receive_loop 3 mcEngine Receive 0 in
    (more, setSimDataChannel :: calls)
  else (false, [setSimDataChannel]).

End Worker.

(** ** Scripted generators

    An instance of [External] for running the devices on examples: primaries
    are numbers, a generator holds the events it is going to produce, a
    fresh generator is made with the events of [script]. *)
Definition scripted (script : list (list nat)) : External :=
  {| Primary := nat;
     MCEventHeader := unit;
     PrimaryGenerator := list (list nat);
     emptyHeader := tt;
     newPrimaryGenerator := script;
     setPrimaryGenerator := fun _ g => g;
     embedInto := fun _ g => g;
     Init := fun g => g;
     GenerateEvent := fun g => (hd [] g, tt, tl g);
     setGRandomSeed := fun s => s |}.

Definition config (name : string) (n : Z) : SimConfigData :=
  {| mGenerator := name; mTrigger := ""; mExtKinFileName := "";
     mEmbedIntoFileName := ""; mNEvents := n |}.

Definition options (name : string) (n chunk : Z) (service : bool) : Options :=
  {| opt_chunkSize := chunk; opt_seed := 1; opt_asservice := service;
     opt_conf := config name n; opt_pipe := None |}.

(** The device after [InitTask]. *)
Definition started `{External} (vm : Options) : result (unit * list Output * Device) :=
  InitTask vm (O2PrimaryServerDevice (opt_conf vm)).

(** Runs [step] on the device a computation has left. *)
Definition and_then `{External} {A B} (r : result (A * list Output * Device))
    (step : Device -> result (B * list Output * Device))
    : result (B * list Output * Device) :=
  match r with
  | Ok (_, _, d) => step d
  | Fault f => Fault f
  end.

(** The values 0 to 4 for the states, in the order of declaration. *)
Definition code_in_order (s : O2PrimaryServerState) : Z :=
  match s with
  | Initializing => 0 | ReadyToServe => 1 | WaitingEvent => 2
  | Idle => 3 | Stopped => 4
  end.

(** ** Vocabulary for the results of a request *)

Section Results.
Context `{External}.

Definition stack_size (d : Device) : Z := Z.of_nat (length (mStack d)).

(** The number of parts of the event on the stack. *)
Definition parts_of (d : Device) : Z :=
  numberofparts (stack_size d) (mChunkGranularity d).

(** The [SubEventInfo] built at lines 341-348. *)
Definition chunk_info (workavailable : bool) (d : Device) : SubEventInfo :=
  {| eventID := if workavailable then mEventCounter d else -1;
     maxEvents := mMaxEvents d;
     part := to_int (mPartCounter d + 1);
     nparts := parts_of d;
     seed := to_int (mEventCounter d + mInitialSeed d);
     index := 0;
     mMCEventHeader := mEventHeader d |}.

(** The feedback to the driver for the first part of an event. *)
Definition pipe_out (d : Device) : list Output :=
  if negb (mPipeToDriver d =? -1) && (to_int (mPartCounter d + 1) =? 1)
  then [PipeWrite (mEventCounter d)] else [].

(** The device after a part has been copied (lines 376-381). *)
Definition after_part (d : Device) : Device :=
  if to_int (mPartCounter d + 1) =? parts_of d
  then set_mGeneratorThread (Some JobGenerateEvent)
         (set_mNeedNewEvent true
            (set_mPartCounter (to_int (mPartCounter d + 1)) d))
  else set_mPartCounter (to_int (mPartCounter d + 1)) d.

(** The device after the bookkeeping for a new event (lines 328-330). *)
Definition start_event (d : Device) : Device :=
  set_mEventCounter (to_int (mEventCounter d + 1))
    (set_mPartCounter 0 (set_mNeedNewEvent false d)).

(** The members which event generation leaves alone. *)
Definition same_counters (d d1 : Device) : Prop :=
  mChunkGranularity d1 = mChunkGranularity d /\
  mPartCounter d1 = mPartCounter d /\
  mNeedNewEvent d1 = mNeedNewEvent d /\
  mMaxEvents d1 = mMaxEvents d /\
  mInitialSeed d1 = mInitialSeed d /\
  mPipeToDriver d1 = mPipeToDriver d /\
  mEventCounter d1 = mEventCounter d /\
  mGeneratorThread d1 = mGeneratorThread d.

(** Part [q] (counted from 0) of [prims] cut from the tail in pieces of
    [g]: the positions from [max 0 (n - (q+1) g)] up to [n - q g]. *)
Definition tail_slice (prims : list Primary) (g q : Z) : list Primary :=
  let n := Z.of_nat (length prims) in
  let s := Z.max 0 (n - (q + 1) * g) in
  let e := Z.max 0 (n - q * g) in
  take (Z.to_nat (e - s)) (drop (Z.to_nat s) prims).

(** The pending generation, if any, completes. *)
Definition joins (d d1 : Device) : Prop :=
  exists o, join_if_joinable d = Ok (tt, o, d1).

(** Every cached pointer points into the memory of generators. *)
Definition cache_valid (d : Device) : Prop :=
  forall name p, mPrimGeneratorCache d !! name = Some p ->
    (p < length (generators d))%nat.

(** The current generator exists. *)
Definition generator_ready (d : Device) : Prop :=
  exists p, mPrimGen d = Some p /\ (p < length (generators d))%nat.

(** The devices which the server goes through: the cache is valid, and the
    current generator exists unless the thread is about to set it up. *)
Definition wf_device (d : Device) : Prop :=
  cache_valid d /\
  ((mGeneratorThread d = Some JobInitGenerator /\ mNeedNewEvent d = true) \/
   generator_ready d).

End Results.

(** ** Devices for the examples *)

(** The device which [InitTask] leaves. *)
Definition after_start `{External} (vm : Options) : Device :=
  match started vm with
  | Ok (_, _, d) => d
  | Fault _ => O2PrimaryServerDevice (opt_conf vm)
  end.

(** The device after the generator thread has been joined. *)
Definition joined `{External} (d : Device) : Device :=
  match join_if_joinable d with
  | Ok (_, _, d1) => d1
  | Fault _ => d
  end.

(** The device which a computation leaves. *)
Definition device_of `{External} {A} (r : result (A * list Output * Device))
    (otherwise : Device) : Device :=
  match r with
  | Ok (_, _, d) => d
  | Fault _ => otherwise
  end.

(** The chunks a computation has sent, each as event number, part, number
    of parts and primaries. *)
Definition replies `{External} {A} (r : result (A * list Output * Device))
    : list (Z * Z * Z * list Primary) :=
  match r with
  | Ok (_, out, _) =>
      (fun m => (eventID (mSubEventInfo m), part (mSubEventInfo m),
                 nparts (mSubEventInfo m), mParticles m)) <$> sent_chunks out
  | Fault _ => []
  end.

(** A reconfiguration which does not stop the server. *)
Definition reconfiguration (name file : string) (n : Z) : SimReconfigData :=
  {| stop := false; configFile := ""; keyValueTokens := ""; startSeed := 7;
     nEvents := n; generator := name; trigger := ""; extKinfileName := file |}.

(** A chunk of one primary, part 1 of 1 of event 1. *)
Definition one_primary_chunk : PrimaryChunk (H := scripted []) :=
  @Build_PrimaryChunk (scripted [])
    (@Build_SubEventInfo (scripted []) 1 2 1 1 2 0 tt) [7%nat].

(** A receive which times out once and then delivers [one_primary_chunk]. *)
Definition second_receive (trial : nat) : Z * PrimaryChunk (H := scripted []) :=
  match trial with
  | O => (-1, one_primary_chunk)
  | _ => (50, one_primary_chunk)
  end.

(** An event of 2^31 + 3 primaries, numbered by their position. *)
Definition huge_event : list nat := seq 0 (Z.to_nat 2147483651).

(** ** Vocabulary for runs of the server *)

Section Runs.
Context `{External}.

(** Part [q] (counted from 0) of the event which [d] is serving. *)
Definition chunk_at (d : Device) (q : Z) : PrimaryChunk :=
  {| mSubEventInfo := chunk_info true (set_mPartCounter q d);
     mParticles := tail_slice (mStack d) (mChunkGranularity d) q |}.

(** The device when the last part of its event has been served. *)
Definition event_served (d : Device) : Device :=
  set_mGeneratorThread (Some JobGenerateEvent)
    (set_mNeedNewEvent true (set_mPartCounter (parts_of d) d)).

(** The generator which [initGenerator] makes when the cache has none for
    the configuration (lines 94-102). *)
Definition made_generator (conf : SimConfigData) : PrimaryGenerator :=
  let made := setPrimaryGenerator conf newPrimaryGenerator in
  Init (if String.eqb (mEmbedIntoFileName conf) "" then made
        else embedInto (mEmbedIntoFileName conf) made).

(** The members which no request path writes. *)
Definition same_setup (d d1 : Device) : Prop :=
  mSimConfig d1 = mSimConfig d /\
  mChunkGranularity d1 = mChunkGranularity d /\
  mMaxEvents d1 = mMaxEvents d /\
  mInitialSeed d1 = mInitialSeed d /\
  mPipeToDriver d1 = mPipeToDriver d /\
  mAsService d1 = mAsService d.

(** No generator makes an event of more than [INT_MAX] primaries. *)
Definition events_bounded : Prop :=
  forall g : PrimaryGenerator,
    Z.of_nat (length (GenerateEvent g).1.1) <= INT_MAX.

(** The devices between two requests of a server started with a positive
    chunk size: while an event is being served no generation is pending and
    the part counter has not reached the number of parts. *)
Definition serving_inv (d : Device) : Prop :=
  wf_device d /\
  1 <= mChunkGranularity d <= INT_MAX /\
  stack_size d <= INT_MAX /\
  (mNeedNewEvent d = false ->
   mGeneratorThread d = None /\ 0 <= mPartCounter d < parts_of d).

End Runs.

(** An instance of [External] whose generators make the same event [ev]
    again and again. *)
Definition constant_events (ev : list nat) : External :=
  {| Primary := nat;
     MCEventHeader := unit;
     PrimaryGenerator := unit;
     emptyHeader := tt;
     newPrimaryGenerator := tt;
     setPrimaryGenerator := fun _ g => g;
     embedInto := fun _ g => g;
     Init := fun g => g;
     GenerateEvent := fun g => (ev, tt, g);
     setGRandomSeed := fun s => s |}.

(** A device whose cache holds a generator for the name "pythia8", with two
    events to come. *)
Definition cached_device : Device (H := scripted []) :=
  set_mPrimGeneratorCache (H := scripted []) {["pythia8" := 0%nat]}
    (set_generators (H := scripted []) [[[7; 8]; [9]]%nat]
       (O2PrimaryServerDevice (H := scripted []) (config "pythia8" 2))).

(** * Properties *)

(** ** Conversions between integer types *)

Lemma to_int_range z : int_range (to_int z).
Proof.
  unfold int_range, to_int, INT_MIN, INT_MAX.
  pose proof (Z.mod_pos_bound (z + 2147483648) 4294967296). lia.
Qed.

Lemma to_int_id z : int_range z -> to_int z = z.
Proof.
  unfold int_range, to_int, INT_MIN, INT_MAX. intros Hz.
  rewrite Z.mod_small; lia.
Qed.

Lemma to_int_eqm32 z : eqm32 (to_int z) z.
Proof.
  unfold eqm32, to_int.
  rewrite Zminus_mod, Zmod_mod, <- Zminus_mod. f_equal. lia.
Qed.

Lemma eqm32_to_int a b : eqm32 a b -> to_int a = to_int b.
Proof.
  unfold eqm32, to_int. intros Hab.
  rewrite (Zplus_mod a), (Zplus_mod b), Hab. reflexivity.
Qed.

Lemma to_size_t_eqm32 z : eqm32 (to_size_t z) z.
Proof.
  unfold eqm32, to_size_t.
  apply Z.mod_mod_divide. exists 4294967296. reflexivity.
Qed.

Lemma eqm32_sub a b c d : eqm32 a b -> eqm32 c d -> eqm32 (a - c) (b - d).
Proof.
  unfold eqm32. intros Hab Hcd.
  rewrite (Zminus_mod a), (Zminus_mod b), Hab, Hcd. reflexivity.
Qed.

Lemma eqm32_mul a b c d : eqm32 a b -> eqm32 c d -> eqm32 (a * c) (b * d).
Proof.
  unfold eqm32. intros Hab Hcd.
  rewrite (Zmult_mod a), (Zmult_mod b), Hab, Hcd. reflexivity.
Qed.

Lemma eqm32_refl a : eqm32 a a.
Proof. reflexivity. Qed.

Lemma eqm32_trans a b c : eqm32 a b -> eqm32 b c -> eqm32 a c.
Proof. unfold eqm32. congruence. Qed.

(** The bounds before clamping are the differences reduced to 32 bits. *)
Lemma endindex0_eq n p g : endindex0 n p g = to_int (n - p * g).
Proof.
  unfold endindex0. apply eqm32_to_int.
  eapply eqm32_trans; [apply to_size_t_eqm32|].
  apply eqm32_sub; [apply eqm32_refl|].
  eapply eqm32_trans; [apply to_size_t_eqm32|]. apply to_int_eqm32.
Qed.

Lemma startindex0_eq n p g : startindex0 n p g = to_int (n - (p + 1) * g).
Proof.
  unfold startindex0. apply eqm32_to_int.
  eapply eqm32_trans; [apply to_size_t_eqm32|].
  apply eqm32_sub; [apply eqm32_refl|].
  eapply eqm32_trans; [apply to_size_t_eqm32|].
  eapply eqm32_trans; [apply to_int_eqm32|].
  apply eqm32_mul; [apply to_int_eqm32 | apply eqm32_refl].
Qed.

Lemma clamp0_max i : clamp0 i = Z.max 0 i.
Proof. unfold clamp0. destruct (Z.ltb_spec i 0); lia. Qed.

(** Without wrap-around the clamped bounds are the expected ones. *)
Lemma bounds_exact n p g :
  0 <= n <= INT_MAX -> 0 <= p -> 1 <= g -> (p + 1) * g <= n + 2147483648 ->
  startindex n p g = Z.max 0 (n - (p + 1) * g) /\
  endindex n p g = Z.max 0 (n - p * g).
Proof.
  unfold INT_MAX. intros Hn Hp Hg Hprod.
  unfold startindex, endindex.
  rewrite startindex0_eq, endindex0_eq, !clamp0_max.
  rewrite !to_int_id; [done | |]; unfold int_range, INT_MIN, INT_MAX; nia.
Qed.

(** Whatever the operands, the clamped bounds are non-negative [int]s. *)
Lemma bounds_int n p g :
  0 <= startindex n p g <= INT_MAX /\ 0 <= endindex n p g <= INT_MAX.
Proof.
  unfold startindex, endindex. rewrite !clamp0_max.
  pose proof (to_int_range (startindex0 n p g)) as Hs.
  pose proof (to_int_range (endindex0 n p g)) as He.
  unfold startindex0, endindex0 in *.
  match goal with |- context [to_int ?x] =>
    pose proof (to_int_range x) as H1 end.
  unfold int_range, INT_MIN, INT_MAX in *.
  split.
  - match goal with |- context [Z.max 0 (to_int ?x)] =>
      pose proof (to_int_range x) as H2 end.
    unfold int_range, INT_MIN, INT_MAX in *. lia.
  - match goal with |- _ <= Z.max 0 (to_int ?x) <= _ =>
      pose proof (to_int_range x) as H2 end.
    unfold int_range, INT_MIN, INT_MAX in *. lia.
Qed.

(** ** The copy loop *)

Lemma copy_loop_in_bounds {A} (prims : list A) k : forall index acc,
  0 <= index -> index + Z.of_nat k <= Z.of_nat (length prims) ->
  index + Z.of_nat k <= INT_MAX ->
  copy_loop prims index k acc
  = Some (acc ++ take k (drop (Z.to_nat index) prims)).
Proof.
  induction k as [|k IH]; intros index acc H0 Hlen Hmax; simpl.
  - rewrite take_0, app_nil_r. reflexivity.
  - destruct (Z.ltb_spec index 0) as [|_]; [lia|].
    destruct (lookup_lt_is_Some_2 prims (Z.to_nat index)) as [p Hp]; [lia|].
    rewrite Hp, to_int_id
      by (unfold int_range, INT_MIN, INT_MAX in *; lia).
    rewrite IH by lia.
    rewrite (drop_S prims p (Z.to_nat index)) by exact Hp.
    replace (Z.to_nat (index + 1)) with (S (Z.to_nat index)) by lia.
    simpl. rewrite <- app_assoc. reflexivity.
Qed.

(** A slice inside the vector is copied as it stands. *)
Lemma copy_range_in_bounds {A} (prims : list A) s e :
  0 <= s <= e -> e <= Z.of_nat (length prims) -> e <= INT_MAX ->
  copy_range prims s e = Some (take (Z.to_nat (e - s)) (drop (Z.to_nat s) prims)).
Proof.
  intros Hse Hlen Hmax. unfold copy_range.
  rewrite copy_loop_in_bounds by lia. reflexivity.
Qed.

(** The loop body is not entered when the end is not above the start. *)
Lemma copy_range_empty {A} (prims : list A) s e :
  e <= s -> copy_range prims s e = Some [].
Proof.
  intros Hes. unfold copy_range.
  replace (Z.to_nat (e - s)) with O by lia. reflexivity.
Qed.

(** Every element the loop copies is read at a position which is an [int]. *)
Lemma copy_loop_positions {A} (prims : list A) k : forall index acc l,
  index <= INT_MAX ->
  copy_loop prims index k acc = Some l ->
  forall x, x ∈ l ->
    x ∈ acc \/ exists i : nat, Z.of_nat i <= INT_MAX /\ prims !! i = Some x.
Proof.
  induction k as [|k IH]; intros index acc l Hmax Hl x Hx; simpl in Hl.
  - left. congruence.
  - destruct (Z.ltb_spec index 0) as [|H0]; [discriminate|].
    destruct (prims !! Z.to_nat index) as [p|] eqn:Hp; [|discriminate].
    destruct (IH _ _ _ (proj2 (to_int_range (index + 1))) Hl x Hx) as [Hin|Hin].
    + apply elem_of_app in Hin as [Hin|Hin]; [by left|].
      apply list_elem_of_singleton in Hin as ->.
      right. exists (Z.to_nat index). split; [lia | exact Hp].
    + by right.
Qed.

Lemma copy_range_positions {A} (prims : list A) s e l :
  s <= INT_MAX ->
  copy_range prims s e = Some l ->
  forall x, x ∈ l -> exists i : nat, Z.of_nat i <= INT_MAX /\ prims !! i = Some x.
Proof.
  intros Hs Hl x Hx.
  destruct (copy_loop_positions _ _ _ _ _ Hs Hl x Hx) as [Hin|Hin]; [|done].
  by apply elem_of_nil in Hin.
Qed.

(** ** One request *)

Ltac case_if :=
  match goal with
  | |- context [if ?c then _ else _] => destruct c; simpl
  end.

Ltac run_monad :=
  unfold mbind, M_bind, get, modify, emit, raise, mret, M_ret in *; simpl in *.

Section Requests.
Context `{External}.

(** A request for a part of the current event, no generation pending. *)
Lemma HandleRequest_part d code ps :
  mNeedNewEvent d = false ->
  mGeneratorThread d = None ->
  copy_range (mStack d)
    (startindex (stack_size d) (mPartCounter d) (mChunkGranularity d))
    (endindex (stack_size d) (mPartCounter d) (mChunkGranularity d)) = Some ps ->
  HandleRequest "primrequest" code d
  = Ok (0 <? code,
        pipe_out d ++
        [Sent (ChunkReply {| mSubEventInfo := chunk_info true d;
                             mParticles := ps |})],
        after_part d).
Proof.
  intros Hneed Hthr Hcopy.
  unfold HandleRequest, pipe_out, after_part, chunk_info, parts_of, stack_size in *.
  simpl. run_monad.
  rewrite Hneed. simpl. rewrite andb_false_r. simpl.
  rewrite Hcopy. simpl. rewrite andb_true_r.
  repeat case_if; try reflexivity;
    unfold launch; run_monad; rewrite Hthr; reflexivity.
Qed.

Lemma same_counters_trans d d1 d2 :
  same_counters d d1 -> same_counters d1 d2 -> same_counters d d2.
Proof. unfold same_counters. intuition congruence. Qed.

Lemma generateEvent_frame d u o d1 :
  generateEvent d = Ok (u, o, d1) -> o = [] /\ same_counters d d1.
Proof.
  unfold generateEvent, same_counters. run_monad.
  destruct (mPrimGen d) as [p|]; [|discriminate].
  destruct (generators d !! p) as [g|]; [|discriminate].
  destruct (GenerateEvent g) as [[prims header] g'].
  run_monad. intros [= <- <- <-]. simpl. done.
Qed.

Lemma initGenerator_frame d u o d1 :
  initGenerator d = Ok (u, o, d1) -> o = [] /\ same_counters d d1.
Proof.
  unfold initGenerator. run_monad.
  destruct (lookup_guard _); simpl;
    [destruct (mPrimGeneratorCache d !! _); simpl|];
    (match goal with
     | |- context [generateEvent ?d'] =>
         destruct (generateEvent d') as [[[u' o'] d'']|] eqn:Hgen; [|discriminate];
         apply generateEvent_frame in Hgen as [-> Hsame]
     end);
    intros [= <- <- <-]; (split; [reflexivity|]);
    (eapply same_counters_trans; [|exact Hsame]); unfold same_counters; done.
Qed.

(** Joining the generator thread touches neither the counters nor the
    outside, and leaves the thread not joinable. *)
Lemma join_frame d u o d1 :
  join_if_joinable d = Ok (u, o, d1) ->
  o = [] /\ mGeneratorThread d1 = None /\
  mChunkGranularity d1 = mChunkGranularity d /\
  mPartCounter d1 = mPartCounter d /\
  mNeedNewEvent d1 = mNeedNewEvent d /\
  mMaxEvents d1 = mMaxEvents d /\
  mInitialSeed d1 = mInitialSeed d /\
  mPipeToDriver d1 = mPipeToDriver d /\
  mEventCounter d1 = mEventCounter d.
Proof.
  unfold join_if_joinable. run_monad.
  destruct (mGeneratorThread d) as [job|] eqn:Hthr.
  - destruct (run_job job d) as [[[u' o'] d']|] eqn:Hjob; [|discriminate].
    intros [= <- <- <-].
    assert (o' = [] /\ same_counters d d') as [-> Hsame].
    { destruct job; simpl in Hjob;
        [eapply initGenerator_frame | eapply generateEvent_frame]; exact Hjob. }
    unfold same_counters in Hsame. simpl. intuition.
  - intros [= <- <- <-]. intuition.
Qed.

(** The first request for an event: after the join and the bookkeeping the
    request goes on like a request for a part. *)
Lemma HandleRequest_new_event d code o d1 :
  mNeedNewEvent d = true ->
  mEventCounter d < mMaxEvents d ->
  join_if_joinable d = Ok (tt, o, d1) ->
  HandleRequest "primrequest" code d
  = match HandleRequest "primrequest" code (start_event d1) with
    | Ok (more, out, d') => Ok (more, o ++ out, d')
    | Fault f => Fault f
    end.
Proof.
  intros Hneed Hwork Hjoin.
  destruct (join_frame _ _ _ _ Hjoin) as (-> & _).
  unfold HandleRequest, start_event. simpl. run_monad.
  rewrite Hneed, Hjoin. simpl.
  destruct (Z.leb_spec (mMaxEvents d) (mEventCounter d)) as [|_]; [lia|]. simpl.
  rewrite andb_false_r. simpl.
  destruct (copy_range _ _ _); simpl; [|reflexivity].
  repeat case_if; try reflexivity;
    unfold launch; run_monad; destruct (mGeneratorThread d1); reflexivity.
Qed.

(** A request when all events have been served and none is being served. *)
Lemma HandleRequest_sentinel d code o d1 :
  mNeedNewEvent d = true ->
  mMaxEvents d <= mEventCounter d ->
  join_if_joinable d = Ok (tt, o, d1) ->
  HandleRequest "primrequest" code d
  = Ok (false,
        [Sent (ChunkReply {| mSubEventInfo := chunk_info false (start_event d1);
                             mParticles := [] |})],
        start_event d1).
Proof.
  intros Hneed Hwork Hjoin.
  destruct (join_frame _ _ _ _ Hjoin) as (-> & _).
  unfold HandleRequest, start_event, chunk_info, parts_of, stack_size.
  simpl. run_monad.
  rewrite Hneed, Hjoin. simpl.
  destruct (Z.leb_spec (mMaxEvents d) (mEventCounter d)) as [_|]; [|lia]. simpl.
  destruct (0 <? code); reflexivity.
Qed.

Lemma sent_chunks_reply d m :
  sent_chunks (pipe_out d ++ [Sent (ChunkReply m)]) = [m].
Proof. unfold pipe_out. case_if; reflexivity. Qed.

End Requests.

(** ** The number of parts *)

Lemma ceil_div_spec n g :
  1 <= g -> (ceil_div n g - 1) * g < n <= ceil_div n g * g.
Proof.
  intros Hg. unfold ceil_div.
  pose proof (Z.div_mod (- n) g) as Hdm.
  pose proof (Z.mod_pos_bound (- n) g) as Hb.
  nia.
Qed.

Lemma ceil_div_range n g : 0 <= n -> 1 <= g -> 0 <= ceil_div n g <= n.
Proof.
  intros Hn Hg. pose proof (ceil_div_spec n g Hg). nia.
Qed.

Lemma numberofparts_exact n g :
  0 <= n <= INT_MAX -> 1 <= g ->
  numberofparts n g = Z.max 1 (ceil_div n g).
Proof.
  intros Hn Hg. unfold numberofparts.
  pose proof (ceil_div_range n g).
  rewrite to_int_id; [done|]. unfold int_range, INT_MIN, INT_MAX in *. lia.
Qed.

(** Before the last part the start of the slice is inside the vector; the
    last part reaches its beginning. *)
Lemma parts_bounds n g p :
  0 <= n <= INT_MAX -> 1 <= g -> 0 <= p ->
  (p + 1 < numberofparts n g -> (p + 1) * g < n) /\
  (p + 1 = numberofparts n g -> n <= (p + 1) * g) /\
  1 <= numberofparts n g <= INT_MAX.
Proof.
  intros Hn Hg Hp. rewrite numberofparts_exact by done.
  pose proof (ceil_div_spec n g Hg). pose proof (ceil_div_range n g).
  unfold INT_MAX in *. repeat split; try nia.
Qed.

(** The product in [startindex] stays within reach of the subtraction for
    every part which the server serves. *)
Lemma reached_part_product n g p :
  0 <= n <= INT_MAX -> 1 <= g <= INT_MAX -> 0 <= p < numberofparts n g ->
  (p + 1) * g <= n + 2147483648.
Proof.
  intros Hn Hg Hp.
  destruct (Z.eq_dec p 0) as [->|Hp0]; [unfold INT_MAX in *; lia|].
  destruct (parts_bounds n g (p - 1)) as (Hmore & _); try lia.
  unfold INT_MAX in *. nia.
Qed.

(** ** Serving an event part by part *)

Section Serving.
Context `{External}.

(** The slices cut from the tail, put back in the order of the vector, are
    the part of the vector which had not been served. *)
Lemma tail_slice_concat (prims : list Primary) g (k : nat) : forall p,
  1 <= g -> 0 <= p -> p * g <= Z.of_nat (length prims) ->
  Z.of_nat (length prims) <= (p + Z.of_nat k) * g ->
  concat (reverse (tail_slice prims g <$> seqZ p (Z.of_nat k)))
  = take (Z.to_nat (Z.of_nat (length prims) - p * g)) prims.
Proof.
  induction k as [|k IH]; intros p Hg Hp Hlo Hhi.
  - simpl. replace (Z.to_nat _) with O by lia. reflexivity.
  - rewrite seqZ_cons by lia. rewrite fmap_cons, reverse_cons, concat_app.
    simpl. rewrite app_nil_r.
    replace (Z.pred (Z.of_nat (S k))) with (Z.of_nat k) by lia.
    unfold tail_slice at 2.
    destruct (Z.le_gt_cases (Z.of_nat (length prims)) (Z.succ p * g)) as [Hlast|Hmore].
    + (* nothing is left below this slice *)
      assert (concat (reverse (tail_slice prims g <$> seqZ (Z.succ p) (Z.of_nat k))) = []) as ->.
      { clear IH Hhi. generalize (Z.succ p) Hlast. intros q Hq. 
        assert (Hq0 : 0 <= q) by nia. clear Hlast Hlo Hp.
        revert q Hq Hq0. induction k as [|k IHk]; intros q Hq Hq0; [reflexivity|].
        rewrite seqZ_cons by lia. rewrite fmap_cons, reverse_cons, concat_app.
        replace (Z.pred (Z.of_nat (S k))) with (Z.of_nat k) by lia.
        rewrite IHk by nia. simpl. rewrite app_nil_r.
        unfold tail_slice. replace (Z.to_nat _) with O by nia. reflexivity. }
      simpl. replace (Z.to_nat (Z.max 0 _)) with O by lia. rewrite drop_0.
      f_equal. lia.
    + rewrite IH by lia.
      set (n := Z.of_nat (length prims)) in *.
      replace (Z.to_nat (n - p * g))
        with (Z.to_nat (n - Z.succ p * g)
              + Z.to_nat (Z.max 0 (n - p * g) - Z.max 0 (n - (p + 1) * g)))%nat
        by lia.
      rewrite <- take_take_drop. do 3 f_equal. lia.
Qed.

Lemma serveEvent_S fuel codes (d : Device) :
  serveEvent (S fuel) codes d
  = match HandleRequest "primrequest" (codes O) d with
    | Fault _ => None
    | Ok (_, out, d') =>
        if mNeedNewEvent d' then Some (sent_chunks out, d')
        else
          match serveEvent fuel (fun n => codes (S n)) d' with
          | Some (chunks, d'') => Some (sent_chunks out ++ chunks, d'')
          | None => None
          end
    end.
Proof. reflexivity. Qed.

(** From any part on, the remaining parts are served one per request, each
    with its slice, and the last request asks for a new event. *)
Lemma serve_parts (k : nat) : forall d codes fuel,
  mNeedNewEvent d = false ->
  mGeneratorThread d = None ->
  stack_size d <= INT_MAX ->
  1 <= mChunkGranularity d <= INT_MAX ->
  0 <= mPartCounter d ->
  mPartCounter d * mChunkGranularity d <= stack_size d ->
  mPartCounter d + Z.of_nat (S k) = parts_of d ->
  (S k <= fuel)%nat ->
  exists chunks d',
    serveEvent fuel codes d = Some (chunks, d') /\
    mParticles <$> chunks
    = tail_slice (mStack d) (mChunkGranularity d)
        <$> seqZ (mPartCounter d) (Z.of_nat (S k)) /\
    (fun m => part (mSubEventInfo m)) <$> chunks
    = seqZ (mPartCounter d + 1) (Z.of_nat (S k)) /\
    Forall (fun m => eventID (mSubEventInfo m) = mEventCounter d /\
                     nparts (mSubEventInfo m) = parts_of d) chunks /\
    mNeedNewEvent d' = true /\
    mStack d' = mStack d /\
    mEventCounter d' = mEventCounter d /\
    mGeneratorThread d' = Some JobGenerateEvent.
Proof.
  induction k as [|k IH]; intros d codes fuel Hneed Hthr Hn Hg Hp Hlo Hparts Hfuel;
    (destruct fuel as [|fuel]; [lia|]);
    assert (Hn0 : 0 <= stack_size d <= INT_MAX) by (unfold stack_size in *; lia);
    destruct (parts_bounds (stack_size d) (mChunkGranularity d) (mPartCounter d))
      as (Hmore & Hlast & HN); try lia;
    fold (parts_of d) in Hmore, Hlast, HN;
    destruct (bounds_exact (stack_size d) (mPartCounter d) (mChunkGranularity d))
      as [Hs He]; try (unfold INT_MAX in *; nia);
    rewrite serveEvent_S,
      (HandleRequest_part d _ (tail_slice (mStack d) (mChunkGranularity d) (mPartCounter d)))
      by (try done; rewrite Hs, He;
          rewrite copy_range_in_bounds
            by (fold (stack_size d); unfold INT_MAX in *; nia);
          unfold tail_slice; fold (stack_size d); do 3 f_equal; lia);
    rewrite sent_chunks_reply;
    unfold after_part;
    rewrite to_int_id by (unfold int_range, INT_MIN, INT_MAX in *; lia).
  - rewrite (proj2 (Z.eqb_eq _ _)) by lia. simpl.
    eexists _, _. split; [reflexivity|].
    split; [simpl; do 2 f_equal; lia|].
    split.
    { simpl. rewrite to_int_id by (unfold int_range, INT_MIN, INT_MAX in *; lia).
      f_equal; lia. }
    split; [repeat constructor|done].
  - rewrite (proj2 (Z.eqb_neq _ _)) by lia. simpl. rewrite Hneed.
    destruct (IH (set_mPartCounter (mPartCounter d + 1) d) (fun n => codes (S n)) fuel)
      as (chunks & d' & -> & Hps & Hnum & Hall & Hneed' & Hstack & Hec & Hthr');
      simpl; try done; try lia;
      try (unfold parts_of, stack_size in *; simpl; nia).
    simpl in *. fold (parts_of d) in *.
    eexists _, _. split; [reflexivity|].
    split.
    { rewrite (seqZ_cons (mPartCounter d)) by lia.
      rewrite !fmap_cons. simpl. f_equal.
      rewrite Hps. f_equal. f_equal; lia. }
    split.
    { rewrite (seqZ_cons (mPartCounter d + 1)) by lia.
      rewrite !fmap_cons. simpl.
      rewrite to_int_id by (unfold int_range, INT_MIN, INT_MAX in *; lia).
      f_equal; rewrite Hnum; f_equal; lia. }
    split; [constructor; [done|exact Hall]|done].
Qed.

(** When a new event is due and work is left, serving starts after the join
    and the bookkeeping. *)
Lemma serveEvent_new_event fuel codes d d1 :
  mNeedNewEvent d = true ->
  mEventCounter d < mMaxEvents d ->
  joins d d1 ->
  serveEvent fuel codes d = serveEvent fuel codes (start_event d1).
Proof.
  intros Hneed Hwork [o Hjoin].
  destruct (join_frame _ _ _ _ Hjoin) as (-> & _).
  destruct fuel as [|fuel]; [reflexivity|].
  rewrite !serveEvent_S, (HandleRequest_new_event d _ [] d1) by done.
  destruct (HandleRequest "primrequest" (codes O) (start_event d1))
    as [[[more out] d']|]; reflexivity.
Qed.

End Serving.

(** ** Requests which return *)

Ltac case_if_in H :=
  match type of H with
  | context [if ?c then _ else _] => destruct c eqn:?; simpl in H
  end.

Section Inversion.
Context `{External}.

(** What a "primrequest" which returns has done. *)

Lemma HandleRequest_inv d code more out d' :
  HandleRequest "primrequest" code d = Ok (more, out, d') ->
  exists d1 ps,
    (if mNeedNewEvent d then joins d d1 else d1 = d) /\
    let d2 := if mNeedNewEvent d then start_event d1 else d in
    let workavailable :=
      negb ((mMaxEvents d <=? mEventCounter d) && mNeedNewEvent d) in
    (if workavailable
     then copy_range (mStack d2)
            (startindex (stack_size d2) (mPartCounter d2) (mChunkGranularity d2))
            (endindex (stack_size d2) (mPartCounter d2) (mChunkGranularity d2))
          = Some ps
     else ps = []) /\
    sent_chunks out
    = [{| mSubEventInfo := chunk_info workavailable d2; mParticles := ps |}] /\
    mStack d' = mStack d2 /\
    more = (0 <? code) && workavailable /\
    (workavailable = false -> d' = d2).
Proof.
  intros Hreq.
  unfold HandleRequest in Hreq. simpl in Hreq. run_monad.
  destruct (mNeedNewEvent d) eqn:Hneed; simpl in Hreq.
  - destruct (join_if_joinable d) as [[[[] o] d1]|] eqn:Hjoin; [|discriminate].
    destruct (join_frame _ _ _ _ Hjoin) as (-> & _).
    simpl in Hreq.
    exists d1.
    destruct (mMaxEvents d <=? mEventCounter d) eqn:Hle; simpl in *.
    + exists []. destruct (0 <? code); injection Hreq as <- <- <-;
        (split; [by exists []|]); done.
    + destruct (copy_range _ _ _) as [ps|] eqn:Hcopy; [|discriminate].
      exists ps. simpl in Hreq.
      repeat case_if_in Hreq;
        unfold launch in Hreq; run_monad;
        try (destruct (mGeneratorThread d1); [discriminate|]; simpl in Hreq);
        injection Hreq as <- <- <-;
        (split; [by exists []|]); done.
  - rewrite andb_false_r in *. simpl in *.
    exists d.
    destruct (copy_range _ _ _) as [ps|] eqn:Hcopy; [|discriminate].
    exists ps. simpl in Hreq.
    repeat case_if_in Hreq;
      unfold launch in Hreq; run_monad;
      try (destruct (mGeneratorThread d); [discriminate|]; simpl in Hreq);
      injection Hreq as <- <- <-; done.
Qed.

Lemma HandleRequest_positions d code more out d' :
  HandleRequest "primrequest" code d = Ok (more, out, d') ->
  exists d1,
    (if mNeedNewEvent d then joins d d1 else d1 = d) /\
    mStack d' = mStack d1 /\
    forall m, m ∈ sent_chunks out -> forall x, x ∈ mParticles m ->
      exists i : nat, Z.of_nat i <= INT_MAX /\ mStack d1 !! i = Some x.
Proof.
  intros Hreq.
  destruct (HandleRequest_inv _ _ _ _ _ Hreq)
    as (d1 & ps & Hd1 & Hps & Hout & Hstack & _).
  exists d1. split; [exact Hd1|].
  assert (Hd2 : mStack (if mNeedNewEvent d then start_event d1 else d) = mStack d1).
  { destruct (mNeedNewEvent d); [reflexivity | by subst]. }
  split; [congruence|].
  intros m Hm x Hx. rewrite Hout in Hm.
  apply list_elem_of_singleton in Hm as ->. simpl in Hx.
  destruct (negb _).
  - rewrite Hd2 in Hps.
    eapply copy_range_positions; [|exact Hps|exact Hx].
    apply bounds_int.
  - subst ps. by apply elem_of_nil in Hx.
Qed.

(** While an event is being served, every primary sent is read from the
    stack at a position which is an [int]. *)
Lemma serveEvent_positions fuel : forall codes d chunks d',
  mNeedNewEvent d = false ->
  serveEvent fuel codes d = Some (chunks, d') ->
  forall m, m ∈ chunks -> forall x, x ∈ mParticles m ->
    exists i : nat, Z.of_nat i <= INT_MAX /\ mStack d !! i = Some x.
Proof.
  induction fuel as [|fuel IH]; intros codes d chunks d' Hneed Hserve;
    [discriminate|].
  rewrite serveEvent_S in Hserve.
  destruct (HandleRequest "primrequest" (codes O) d)
    as [[[more out] d1]|] eqn:Hreq; [|discriminate].
  destruct (HandleRequest_positions _ _ _ _ _ Hreq) as (d0 & Hd0 & Hstack & Hpos).
  rewrite Hneed in Hd0. subst d0.
  destruct (mNeedNewEvent d1) eqn:Hneed1.
  - injection Hserve as <- <-. exact Hpos.
  - destruct (serveEvent fuel _ d1) as [[chunks1 d2]|] eqn:Hrest; [|discriminate].
    injection Hserve as <- <-.
    intros m Hm x Hx. apply elem_of_app in Hm as [Hm|Hm].
    + eapply Hpos; eauto.
    + rewrite <- Hstack. eapply IH; eauto.
Qed.

Lemma serveEvent_positions_new_event fuel codes d d1 chunks d' :
  mNeedNewEvent d = true ->
  joins d d1 ->
  serveEvent fuel codes d = Some (chunks, d') ->
  forall m, m ∈ chunks -> forall x, x ∈ mParticles m ->
    exists i : nat, Z.of_nat i <= INT_MAX /\ mStack d1 !! i = Some x.
Proof.
  intros Hneed [o Hjoin] Hserve.
  destruct fuel as [|fuel]; [discriminate|].
  rewrite serveEvent_S in Hserve.
  destruct (HandleRequest "primrequest" (codes O) d)
    as [[[more out] d2]|] eqn:Hreq; [|discriminate].
  destruct (HandleRequest_positions _ _ _ _ _ Hreq) as (d0 & Hd0 & Hstack & Hpos).
  rewrite Hneed in Hd0. destruct Hd0 as [o0 Hjoin0].
  assert (d0 = d1) as -> by congruence.
  destruct (mNeedNewEvent d2) eqn:Hneed2.
  - injection Hserve as <- <-. exact Hpos.
  - destruct (serveEvent fuel _ d2) as [[chunks1 d3]|] eqn:Hrest; [|discriminate].
    injection Hserve as <- <-.
    intros m Hm x Hx. apply elem_of_app in Hm as [Hm|Hm].
    + eapply Hpos; eauto.
    + rewrite <- Hstack. eapply serveEvent_positions; eauto.
Qed.

(** A primary which the vector holds only beyond the range of [int] is in
    no chunk, so the chunks do not make up the event. *)
Lemma beyond_int_not_served fuel codes (d d1 : Device) chunks d' x :
  mNeedNewEvent d = true ->
  joins d d1 ->
  serveEvent fuel codes d = Some (chunks, d') ->
  x ∈ mStack d1 ->
  (forall i : nat, mStack d1 !! i = Some x -> INT_MAX < Z.of_nat i) ->
  concat (reverse (mParticles <$> chunks)) <> mStack d1.
Proof.
  intros Hneed Hjoins Hserve Hx Hbeyond Hall.
  rewrite <- Hall in Hx.
  apply list_elem_of_In, in_concat in Hx as (ps & Hps & Hx).
  apply list_elem_of_In, elem_of_reverse, list_elem_of_fmap in Hps as (m & -> & Hm).
  apply list_elem_of_In in Hx.
  destruct (serveEvent_positions_new_event _ _ _ _ _ _ Hneed Hjoins Hserve m Hm _ Hx)
    as (i & Hi & Hlook).
  apply Hbeyond in Hlook. lia.
Qed.

(** The first chunk of an event of 2^31 + 3 primaries, served in chunks of
    1000, is empty. *)
Lemma oversized_first_chunk (d d1 : Device) code :
  mNeedNewEvent d = true ->
  mEventCounter d = 0 ->
  mMaxEvents d = 2 ->
  mChunkGranularity d = 1000 ->
  mPipeToDriver d = -1 ->
  joins d d1 ->
  stack_size d1 = 2147483651 ->
  exists more out d',
    HandleRequest "primrequest" code d = Ok (more, out, d') /\
    mParticles <$> sent_chunks out = [[]] /\
    (fun m => eventID (mSubEventInfo m)) <$> sent_chunks out = [1] /\
    mNeedNewEvent d' = false.
Proof.
  intros Hneed Hec Hmax Hg Hpipe [o Hjoin] Hsize.
  destruct (join_frame _ _ _ _ Hjoin)
    as (-> & Hthr & Hg1 & Hp1 & Hneed1 & Hmax1 & _ & Hpipe1 & Hec1).
  rewrite (HandleRequest_new_event d code [] d1) by (try done; lia).
  assert (Hparts : parts_of (start_event d1) = 2147484).
  { unfold parts_of. change (stack_size (start_event d1)) with (stack_size d1).
    simpl. rewrite Hsize, Hg1, Hg. reflexivity. }
  rewrite (HandleRequest_part (start_event d1) code []); try done.
  - eexists _, _, _. split; [reflexivity|].
    rewrite app_nil_l, sent_chunks_reply. unfold after_part.
    rewrite Hparts. simpl. rewrite Hec1, Hec. done.
  - change (stack_size (start_event d1)) with (stack_size d1). simpl.
    rewrite Hsize, Hg1, Hg. apply copy_range_empty. vm_compute. discriminate.
Qed.

End Inversion.

(** ** Facts about the example devices *)

(** The device started with a generator which produces [ev] first: a new
    event is due, and joining the generator thread leaves [ev] on the
    stack. *)
Lemma after_start_facts (ev : list nat) (rest : list (list nat)) (g n : Z) :
  let d := after_start (H := scripted (ev :: rest)) (options "pythia8" n g false) in
  mNeedNewEvent d = true /\ mEventCounter d = 0 /\ mMaxEvents d = to_int n /\
  mChunkGranularity d = to_int g /\ mPipeToDriver d = -1 /\
  joins d (joined d) /\ mStack (joined d) = ev.
Proof.
  intros d.
  do 5 (split; [reflexivity|]).
  split; [|reflexivity].
  subst d. cbv -[to_int]. exists []. reflexivity.
Qed.

(** Replaces the started device and the device after the join by variables
    of which only the facts above are known. *)
Ltac abstract_start ev rest g n :=
  cbv zeta;
  destruct (after_start_facts ev rest g n)
    as (Hneed & Hec & Hmax & Hg & Hpipe & Hjoins & Hstack);
  revert Hneed Hec Hmax Hg Hpipe Hjoins Hstack;
  generalize (after_start (H := scripted (ev :: rest)) (options "pythia8" n g false));
  let d := fresh "d" in
  intros d; generalize (joined d);
  let d1 := fresh "d1" in
  intros d1 Hneed Hec Hmax Hg Hpipe Hjoins Hstack;
  change (to_int g) with g in Hg;
  change (to_int n) with n in Hmax.

Lemma huge_event_lookup (i : nat) x :
  huge_event !! i = Some x -> x = i.
Proof.
  unfold huge_event. intros Hx. apply lookup_seq in Hx. lia.
Qed.

Lemma huge_event_last : (Z.to_nat 2147483650) ∈ huge_event.
Proof.
  unfold huge_event. apply elem_of_seq. lia.
Qed.


Lemma huge_event_length : Z.of_nat (length huge_event) = 2147483651.
Proof. unfold huge_event. rewrite length_seq. lia. Qed.


(** * The claims *)

(** ** Slice bounds (C10) *)

(** C10, as amended.  For a part counter [p >= 0], a chunk granularity
    [g >= 1] and a vector of [n <= INT_MAX] primaries such that
    [(p + 1) * g <= n + 2^31] (which holds for every part the server
    reaches), the bounds after clamping satisfy
    [0 <= startindex <= endindex <= n] and the copy loop reads the vector
    inside its bounds only: it returns the slice between the bounds. *)
Theorem slice_bounds_within_vector {A} (prims : list A) (p g : Z) :
  let n := Z.of_nat (length prims) in
  0 <= p -> 1 <= g -> n <= INT_MAX -> (p + 1) * g <= n + 2147483648 ->
  0 <= startindex n p g <= endindex n p g /\
  endindex n p g <= n /\
  copy_range prims (startindex n p g) (endindex n p g)
  = Some (take (Z.to_nat (endindex n p g - startindex n p g))
            (drop (Z.to_nat (startindex n p g)) prims)).
Proof.
  intros n Hp Hg Hn Hprod.
  destruct (bounds_exact n p g) as [Hs He]; try lia.
  assert (Hbounds : 0 <= startindex n p g <= endindex n p g /\
                    endindex n p g <= n) by (rewrite Hs, He; nia).
  split; [tauto|]. split; [tauto|].
  apply copy_range_in_bounds; lia.
Qed.

Lemma slice_bounds_within_vector_witness :
  let prims := [10; 20; 30]%nat in
  let n := Z.of_nat (length prims) in
  (0 <= 0 /\ 1 <= 2 /\ n <= INT_MAX /\ (0 + 1) * 2 <= n + 2147483648) /\
  (0 <= startindex n 0 2 <= endindex n 0 2 /\
   endindex n 0 2 <= n /\
   copy_range prims (startindex n 0 2) (endindex n 0 2)
   = Some (take (Z.to_nat (endindex n 0 2 - startindex n 0 2))
             (drop (Z.to_nat (startindex n 0 2)) prims))).
Proof.
  split.
  - vm_compute. repeat split; discriminate.
  - apply (slice_bounds_within_vector [10; 20; 30]%nat 0 2);
      vm_compute; discriminate.
Defined.

(** C10 fails as stated: with [n = 2^31 + 3] primaries, part counter 0 and
    granularity 5, [endindex] is negative as an [int] and is raised to 0
    while [startindex] is [2^31 - 2]. *)
Lemma slice_bounds_counterexample :
  ~ (let n := 2147483651 in
     let p := 0 in
     let g := 5 in
     0 <= p -> 1 <= g -> 0 <= n ->
     0 <= startindex n p g <= endindex n p g /\ endindex n p g <= n).
Proof.
  intros Hclaim.
  assert (Hs : startindex 2147483651 0 5 = 2147483646) by reflexivity.
  assert (He : endindex 2147483651 0 5 = 0) by reflexivity.
  simpl in Hclaim. rewrite Hs, He in Hclaim. lia.
Qed.

(** With a part counter which the server never reaches the product
    [mPartCounter * mChunkGranularity] overflows; reduced to 32 bits it
    yields bounds beyond a vector of 10 primaries. *)
Lemma slice_bounds_product_overflow :
  startindex 10 858993458 5 = 11 /\ endindex 10 858993458 5 = 16.
Proof. split; reflexivity. Qed.

(** ** Serving an event completely (C1) *)

Section Partition.
Context `{External}.

(** C1, as amended.  Let a new event be due with work left, let the pending
    generation complete and leave an event of [n <= INT_MAX] primaries on
    the stack, and let the chunk granularity be [1 <= g <= INT_MAX].  Then
    the requests for that event are answered with [max 1 (ceil (n / g))]
    chunks which, put together from the last to the first, are exactly the
    primaries of the event, each once and in their order; all carry the
    number of the event, and the last request asks for a new event. *)
Theorem served_chunks_partition_event (d d1 : Device) (codes : nat -> Z) (fuel : nat) :
  mNeedNewEvent d = true ->
  mEventCounter d < mMaxEvents d ->
  joins d d1 ->
  1 <= mChunkGranularity d <= INT_MAX ->
  stack_size d1 <= INT_MAX ->
  (Z.to_nat (parts_of d1) <= fuel)%nat ->
  exists chunks d',
    serveEvent fuel codes d = Some (chunks, d') /\
    concat (reverse (mParticles <$> chunks)) = mStack d1 /\
    Z.of_nat (length chunks)
    = Z.max 1 (ceil_div (stack_size d1) (mChunkGranularity d)) /\
    Forall (fun m => eventID (mSubEventInfo m) = to_int (mEventCounter d + 1)) chunks /\
    mNeedNewEvent d' = true.
Proof.
  intros Hneed Hwork Hjoins Hg Hn Hfuel.
  rewrite (serveEvent_new_event fuel codes d d1) by done.
  destruct Hjoins as [o Hjoin].
  destruct (join_frame _ _ _ _ Hjoin)
    as (_ & Hthr & Hg1 & _ & _ & _ & _ & _ & Hec).
  assert (Hn0 : 0 <= stack_size d1 <= INT_MAX) by (unfold stack_size in *; lia).
  rewrite <- Hg1 in *.
  assert (Hparts : parts_of d1 = Z.max 1 (ceil_div (stack_size d1) (mChunkGranularity d1))).
  { unfold parts_of. apply numberofparts_exact; lia. }
  assert (exists k, Z.to_nat (parts_of d1) = S k) as [k Hk].
  { exists (Z.to_nat (parts_of d1) - 1)%nat. lia. }
  destruct (serve_parts k (start_event d1) codes fuel)
    as (chunks & d' & Hserve & Hps & _ & Hall & Hneed' & _);
    simpl; try done; try lia.
  { change (stack_size (start_event d1)) with (stack_size d1). lia. }
  { change (parts_of (start_event d1)) with (parts_of d1). lia. }
  exists chunks, d'. split; [exact Hserve|].
  simpl in Hps, Hall.
  split.
  { rewrite Hps.
    rewrite (tail_slice_concat (mStack d1)); try lia.
    - rewrite Z.mul_0_l, Z.sub_0_r, Nat2Z.id. apply firstn_all.
    - fold (stack_size d1).
      destruct (parts_bounds (stack_size d1) (mChunkGranularity d1) (parts_of d1 - 1))
        as (_ & Hlast & _); try lia.
      fold (parts_of d1) in Hlast. nia. }
  split.
  { rewrite <- Hparts. 
    apply (f_equal length) in Hps. rewrite !length_fmap, length_seqZ in Hps. lia. }
  split; [|exact Hneed'].
  eapply Forall_impl; [exact Hall|]. intros m [Hid _]. rewrite Hid, Hec. reflexivity.
Qed.

End Partition.

Lemma served_chunks_partition_event_witness :
  let d := after_start (H := scripted [[10; 20; 30; 40; 50]%nat])
             (options "pythia8" 2 2 false) in
  let d1 := joined d in
  (mNeedNewEvent d = true /\
   mEventCounter d < mMaxEvents d /\
   joins d d1 /\
   1 <= mChunkGranularity d <= INT_MAX /\
   stack_size d1 <= INT_MAX /\
   (Z.to_nat (parts_of d1) <= 3)%nat) /\
  exists chunks d',
    serveEvent 3 (fun _ => 1) d = Some (chunks, d') /\
    concat (reverse (mParticles <$> chunks)) = mStack d1 /\
    Z.of_nat (length chunks)
    = Z.max 1 (ceil_div (stack_size d1) (mChunkGranularity d)) /\
    Forall (fun m => eventID (mSubEventInfo m) = to_int (mEventCounter d + 1))
      chunks /\
    mNeedNewEvent d' = true.
Proof.
  abstract_start [10; 20; 30; 40; 50]%nat (@nil (list nat)) 2 2.
  assert (Hwork : mEventCounter d < mMaxEvents d) by lia.
  assert (Hgran : 1 <= mChunkGranularity d <= INT_MAX)
    by (rewrite Hg; unfold INT_MAX; lia).
  assert (Hsize : stack_size d1 = 5) by (unfold stack_size; rewrite Hstack; reflexivity).
  assert (Hn : stack_size d1 <= INT_MAX) by (rewrite Hsize; unfold INT_MAX; lia).
  assert (Hfuel : (Z.to_nat (parts_of d1) <= 3)%nat).
  { destruct Hjoins as [o Hjoin].
    destruct (join_frame _ _ _ _ Hjoin) as (_ & _ & Hg1 & _).
    unfold parts_of. rewrite Hsize, Hg1, Hg. vm_compute. repeat constructor. }
  split; [tauto|].
  exact (served_chunks_partition_event d d1 (fun _ => 1) 3
           Hneed Hwork Hjoins Hgran Hn Hfuel).
Defined.

(** C1 fails as stated: when the generator produces an event of 2^31 + 3
    primaries (numbered by position) and the granularity is 1000, the first
    request for the event is answered with an empty chunk of event 1 and
    the event is not finished, and however many requests follow, the
    chunks served for the event do not make up the event: the copy loop
    indexes with an [int], so that the primary at position 2^31 + 2 is never
    read. *)
Lemma oversized_event_counterexample :
  let d := after_start (H := scripted [huge_event]) (options "pythia8" 2 1000 false) in
  (1 <= mChunkGranularity d /\
   mNeedNewEvent d = true /\ mEventCounter d < mMaxEvents d /\
   joins d (joined d) /\ mStack (joined d) = huge_event) /\
  (exists more out d',
     HandleRequest "primrequest" 1 d = Ok (more, out, d') /\
     mParticles <$> sent_chunks out = [[]] /\
     (fun m => eventID (mSubEventInfo m)) <$> sent_chunks out = [1] /\
     mNeedNewEvent d' = false) /\
  ~ exists fuel codes chunks d',
      serveEvent fuel codes d = Some (chunks, d') /\
      concat (reverse (mParticles <$> chunks)) = mStack (joined d).
Proof.
  abstract_start huge_event (@nil (list nat)) 1000 2.
  split; [|split].
  - repeat split; [lia|exact Hneed|lia|exact Hjoins|exact Hstack].
  - apply (oversized_first_chunk d d1); try assumption.
    unfold stack_size. rewrite Hstack. apply huge_event_length.
  - intros (fuel & codes & chunks & d' & Hserve & Hall).
    revert Hall.
    apply (beyond_int_not_served fuel codes d d1 chunks d' (Z.to_nat 2147483650));
      try assumption.
    + rewrite Hstack. apply huge_event_last.
    + intros i. rewrite Hstack. intros Hi%huge_event_lookup.
      unfold INT_MAX. lia.
Qed.

(** ** The scenario of 1200 primaries in chunks of 500 (C6) *)

Section Scenario1200.
Context `{External}.

Lemma serve_1200_by_500 (d d1 : Device) (codes : nat -> Z) (fuel : nat) :
  mNeedNewEvent d = true ->
  mEventCounter d < mMaxEvents d ->
  joins d d1 ->
  mChunkGranularity d = 500 ->
  stack_size d1 = 1200 ->
  (3 <= fuel)%nat ->
  exists chunks d',
    serveEvent fuel codes d = Some (chunks, d') /\
    mParticles <$> chunks
    = [drop 700 (mStack d1); take 500 (drop 200 (mStack d1)); take 200 (mStack d1)] /\
    (fun m => length (mParticles m)) <$> chunks = [500; 500; 200]%nat /\
    (fun m => part (mSubEventInfo m)) <$> chunks = [1; 2; 3] /\
    Forall (fun m => nparts (mSubEventInfo m) = 3) chunks.
Proof.
  intros Hneed Hwork Hjoins Hg Hn Hfuel.
  rewrite (serveEvent_new_event fuel codes d d1) by done.
  destruct Hjoins as [o Hjoin].
  destruct (join_frame _ _ _ _ Hjoin) as (_ & Hthr & Hg1 & _).
  rewrite <- Hg1 in Hg.
  assert (Hparts : parts_of d1 = 3).
  { unfold parts_of. rewrite Hn, Hg. reflexivity. }
  destruct (serve_parts 2 (start_event d1) codes fuel)
    as (chunks & d' & Hserve & Hps & Hnum & Hall & _).
  { reflexivity. }
  { exact Hthr. }
  { change (stack_size (start_event d1)) with (stack_size d1). rewrite Hn. done. }
  { change (mChunkGranularity (start_event d1)) with (mChunkGranularity d1).
    rewrite Hg. done. }
  { simpl. lia. }
  { change (stack_size (start_event d1)) with (stack_size d1). simpl. lia. }
  { change (parts_of (start_event d1)) with (parts_of d1). simpl. lia. }
  { lia. }
  exists chunks, d'. split; [exact Hserve|].
  change (mStack (start_event d1)) with (mStack d1) in Hps.
  change (mChunkGranularity (start_event d1)) with (mChunkGranularity d1) in Hps.
  change (mPartCounter (start_event d1)) with 0 in Hps, Hnum.
  change (parts_of (start_event d1)) with (parts_of d1) in Hall.
  assert (Hslices : mParticles <$> chunks
    = [drop 700 (mStack d1); take 500 (drop 200 (mStack d1)); take 200 (mStack d1)]).
  { rewrite Hps, Hg. unfold tail_slice. fold (stack_size d1). rewrite Hn. simpl.
    f_equal. apply firstn_all2. rewrite length_drop.
    unfold stack_size in Hn. lia. }
  split; [exact Hslices|].
  split.
  { transitivity (length <$> (mParticles <$> chunks));
      [by rewrite <- list_fmap_compose|].
    rewrite Hslices. simpl.
    rewrite !length_take, !length_drop. unfold stack_size in Hn.
    repeat f_equal; lia. }
  split; [exact Hnum|].
  eapply Forall_impl; [exact Hall|]. intros m [_ Hm]. by rewrite Hm.
Qed.

(** C6, as amended.  With a chunk granularity of 500 and an event of 1200
    primaries, the successive requests for that event serve chunks of sizes
    500, 500, 200 in that order: the positions 700 to 1199, then 200 to 699,
    then 0 to 199 (slicing from the tail, the remainder last).  They are the
    parts 1, 2, 3 and each reply has [nparts = 3]. *)
Theorem chunks_of_1200_by_500 (d d1 : Device) (codes : nat -> Z) (fuel : nat) :
  mNeedNewEvent d = true ->
  mEventCounter d < mMaxEvents d ->
  joins d d1 ->
  mChunkGranularity d = 500 ->
  stack_size d1 = 1200 ->
  (3 <= fuel)%nat ->
  exists chunks d',
    serveEvent fuel codes d = Some (chunks, d') /\
    mParticles <$> chunks
    = [drop 700 (mStack d1); take 500 (drop 200 (mStack d1)); take 200 (mStack d1)] /\
    (fun m => length (mParticles m)) <$> chunks = [500; 500; 200]%nat /\
    (fun m => part (mSubEventInfo m)) <$> chunks = [1; 2; 3] /\
    Forall (fun m => nparts (mSubEventInfo m) = 3) chunks.
Proof. apply serve_1200_by_500. Qed.

End Scenario1200.

Lemma chunks_of_1200_by_500_witness :
  let d := after_start (H := scripted [seq 0 1200]) (options "pythia8" 2 500 false) in
  let d1 := joined d in
  (mNeedNewEvent d = true /\ mEventCounter d < mMaxEvents d /\ joins d d1 /\
   mChunkGranularity d = 500 /\ stack_size d1 = 1200 /\ (3 <= 3)%nat) /\
  exists chunks d',
    serveEvent 3 (fun _ => 1) d = Some (chunks, d') /\
    mParticles <$> chunks
    = [drop 700 (mStack d1); take 500 (drop 200 (mStack d1)); take 200 (mStack d1)] /\
    (fun m => length (mParticles m)) <$> chunks = [500; 500; 200]%nat /\
    (fun m => part (mSubEventInfo m)) <$> chunks = [1; 2; 3] /\
    Forall (fun m => nparts (mSubEventInfo m) = 3) chunks.
Proof.
  abstract_start (seq 0 1200) (@nil (list nat)) 500 2.
  assert (Hwork : mEventCounter d < mMaxEvents d) by lia.
  assert (Hn : stack_size d1 = 1200)
    by (unfold stack_size; rewrite Hstack, length_seq; reflexivity).
  assert (Hfuel : (3 <= 3)%nat) by constructor.
  split; [tauto|].
  exact (chunks_of_1200_by_500 d d1 (fun _ => 1) 3 Hneed Hwork Hjoins Hg Hn Hfuel).
Defined.

(** C6 fails as stated: on an event of 1200 primaries served in chunks of
    500 the sizes are 500, 500, 200 in that order, not 200, 500, 500. *)
Lemma sizes_200_500_500_counterexample :
  let d := after_start (H := scripted [seq 0 1200]) (options "pythia8" 2 500 false) in
  exists chunks d',
    serveEvent 3 (fun _ => 1) d = Some (chunks, d') /\
    (fun m => length (mParticles m)) <$> chunks = [500; 500; 200]%nat /\
    (fun m => length (mParticles m)) <$> chunks <> [200; 500; 500]%nat /\
    (fun m => nparts (mSubEventInfo m)) <$> chunks = [3; 3; 3].
Proof.
  abstract_start (seq 0 1200) (@nil (list nat)) 500 2.
  destruct (serve_1200_by_500 d d1 (fun _ => 1) 3)
    as (chunks & d' & Hserve & Hps & Hsizes & Hnum & Hall); try assumption.
  { lia. }
  { unfold stack_size. rewrite Hstack, length_seq. reflexivity. }
  { constructor. }
  exists chunks, d'. split; [exact Hserve|]. split; [exact Hsizes|].
  split; [rewrite Hsizes; discriminate|].
  destruct chunks as [|c1 [|c2 [|c3 [|c4 rest]]]]; try discriminate Hsizes.
  apply Forall_cons in Hall as [H1 Hall].
  apply Forall_cons in Hall as [H2 Hall].
  apply Forall_cons in Hall as [H3 _].
  rewrite !fmap_cons, H1, H2, H3. reflexivity.
Qed.

(** ** The end-of-work sentinel (C2, C3) *)

Section Sentinel.
Context `{External}.

Lemma is_sentinel_spec (m : PrimaryChunk) :
  is_sentinel m = true <-> mParticles m = [] /\ eventID (mSubEventInfo m) = -1.
Proof.
  unfold is_sentinel. rewrite andb_true_iff, !Z.eqb_eq.
  destruct (mParticles m); simpl; split; intros [? ?]; split; try done; lia.
Qed.


(** C3, as amended.  With [maxEvents = 2], a chunk granularity [g] with
    [1 <= g <= INT_MAX] and an event of [n <= INT_MAX] primaries left on the
    stack by the generation pending after the second event: after 2 full
    events have been served (the event counter is 2 and a new event is
    due), the next "primrequest" is answered, once the pending generation
    has completed, with a chunk without primaries whose [eventID] is -1 and
    whose [nparts] is [max 1 (ceil (n / g))]; it is 1 when [n <= g]. *)
Theorem sentinel_after_two_events (d d1 : Device) (code : Z) :
  mMaxEvents d = 2 ->
  mEventCounter d = 2 ->
  mNeedNewEvent d = true ->
  joins d d1 ->
  1 <= mChunkGranularity d <= INT_MAX ->
  stack_size d1 <= INT_MAX ->
  exists m d',
    HandleRequest "primrequest" code d = Ok (false, [Sent (ChunkReply m)], d') /\
    eventID (mSubEventInfo m) = -1 /\
    mParticles m = [] /\
    nparts (mSubEventInfo m)
    = Z.max 1 (ceil_div (stack_size d1) (mChunkGranularity d)) /\
    (stack_size d1 <= mChunkGranularity d -> nparts (mSubEventInfo m) = 1).
Proof.
  intros Hmax Hec Hneed [o Hjoin] Hg Hn.
  destruct (join_frame _ _ _ _ Hjoin) as (_ & _ & Hg1 & _).
  rewrite (HandleRequest_sentinel d code o d1) by (try done; lia).
  eexists _, _. split; [reflexivity|]. simpl.
  change (parts_of (start_event d1)) with (parts_of d1).
  assert (Hparts : parts_of d1
                   = Z.max 1 (ceil_div (stack_size d1) (mChunkGranularity d))).
  { unfold parts_of. rewrite Hg1. apply numberofparts_exact; [|lia].
    unfold stack_size in *. lia. }
  repeat split; [exact Hparts|].
  intros Hsmall. rewrite Hparts.
  pose proof (ceil_div_spec (stack_size d1) (mChunkGranularity d)).
  assert (0 <= stack_size d1) by (unfold stack_size; lia). nia.
Qed.


(** C2.  A "primrequest" is answered with the end-of-work sentinel (a chunk
    without primaries and with [eventID = -1]) if and only if, when the
    request arrives, [eventCounter >= maxEvents] and a new event is due.
    (The event counter counts events and is not negative; the generation
    pending when a new event is due completes.) *)
Theorem sentinel_iff_no_work (d d1 : Device) (code : Z) :
  0 <= mEventCounter d ->
  mMaxEvents d <= INT_MAX ->
  (mNeedNewEvent d = true -> joins d d1) ->
  (exists more out d' m,
     HandleRequest "primrequest" code d = Ok (more, out, d') /\
     sent_chunks out = [m] /\
     mParticles m = [] /\ eventID (mSubEventInfo m) = -1)
  <-> (mMaxEvents d <= mEventCounter d /\ mNeedNewEvent d = true).
Proof.
  intros Hec Hmax Hjoins. split.
  - intros (more & out & d' & m & Hreq & Hout & Hps & Hid).
    destruct (HandleRequest_inv _ _ _ _ _ Hreq)
      as (d0 & ps & Hd0 & Hcopy & Hout' & _).
    rewrite Hout in Hout'. injection Hout' as ->. simpl in Hid.
    destruct (mNeedNewEvent d) eqn:Hneed.
    + destruct (Z.leb_spec (mMaxEvents d) (mEventCounter d)) as [Hle|Hlt];
        [done|]. exfalso. simpl in Hid.
      destruct Hd0 as [o Hjoin].
      destruct (join_frame _ _ _ _ Hjoin) as (_ & _ & _ & _ & _ & _ & _ & _ & Hec0).
      rewrite Hec0, to_int_id in Hid
        by (unfold int_range, INT_MIN, INT_MAX in *; lia).
      lia.
    + rewrite andb_false_r in Hid. simpl in Hid. lia.
  - intros [Hle Hneed]. destruct (Hjoins Hneed) as [o Hjoin].
    rewrite (HandleRequest_sentinel d code o d1) by done.
    eexists _, _, _, _. split; [reflexivity|]. done.
Qed.

End Sentinel.

Lemma sentinel_after_two_events_witness :
  let d := device_of (and_then (H := scripted [[1]; [2]; [3]]%nat)
                        (and_then (started (options "pythia8" 2 2 false))
                           (HandleRequest "primrequest" 1))
                        (HandleRequest "primrequest" 1))
            (O2PrimaryServerDevice (config "pythia8" 2)) in
  let d1 := joined d in
  (mMaxEvents d = 2 /\ mEventCounter d = 2 /\ mNeedNewEvent d = true /\
   joins d d1 /\ 1 <= mChunkGranularity d <= INT_MAX /\ stack_size d1 <= INT_MAX) /\
  exists m d',
    HandleRequest "primrequest" 1 d = Ok (false, [Sent (ChunkReply m)], d') /\
    eventID (mSubEventInfo m) = -1 /\
    mParticles m = [] /\
    nparts (mSubEventInfo m)
    = Z.max 1 (ceil_div (stack_size d1) (mChunkGranularity d)) /\
    (stack_size d1 <= mChunkGranularity d -> nparts (mSubEventInfo m) = 1).
Proof.
  cbv zeta.
  match goal with |- (_ /\ _ /\ _ /\ joins ?d ?d1 /\ _ /\ _) /\ _ =>
    assert (Hmax : mMaxEvents d = 2) by (vm_compute; reflexivity);
    assert (Hec : mEventCounter d = 2) by (vm_compute; reflexivity);
    assert (Hneed : mNeedNewEvent d = true) by (vm_compute; reflexivity);
    assert (Hjoins : joins d d1) by (exists []; vm_compute; reflexivity);
    assert (Hg : 1 <= mChunkGranularity d <= INT_MAX)
      by (vm_compute; split; discriminate);
    assert (Hn : stack_size d1 <= INT_MAX) by (vm_compute; discriminate)
  end.
  split; [tauto|].
  exact (sentinel_after_two_events _ _ 1 Hmax Hec Hneed Hjoins Hg Hn).
Defined.


(** C3 fails as stated: with [maxEvents = 2], chunks of 2 and a generator
    whose events have 1, 1 and 3 primaries, the first two requests serve the
    two events and the 3rd is answered with the sentinel, but its [nparts]
    is 2, the number of parts of the third event which was generated in the
    background. *)
Lemma third_request_nparts_counterexample :
  let r1 := and_then (H := scripted [[1]; [2]; [3; 4; 5]]%nat)
              (started (options "pythia8" 2 2 false))
              (HandleRequest "primrequest" 1) in
  let r2 := and_then r1 (HandleRequest "primrequest" 1) in
  let r3 := and_then r2 (HandleRequest "primrequest" 1) in
  replies r1 = [(1, 1, 1, [1%nat])] /\
  replies r2 = [(2, 1, 1, [2%nat])] /\
  replies r3 = [(-1, 1, 2, [])] /\
  ~ (exists id parts particles, replies r3 = [(id, parts, 1, particles)]).
Proof.
  vm_compute. repeat split. intros (id & parts & particles & Heq). discriminate.
Qed.

Lemma sentinel_iff_no_work_witness :
  let d := device_of (and_then (H := scripted [[1]; [2]; [3]]%nat)
                        (and_then (started (options "pythia8" 2 2 false))
                           (HandleRequest "primrequest" 1))
                        (HandleRequest "primrequest" 1))
            (O2PrimaryServerDevice (config "pythia8" 2)) in
  let d1 := joined d in
  (0 <= mEventCounter d /\ mMaxEvents d <= INT_MAX /\
   (mNeedNewEvent d = true -> joins d d1)) /\
  ((exists more out d' m,
      HandleRequest "primrequest" 1 d = Ok (more, out, d') /\
      sent_chunks out = [m] /\
      mParticles m = [] /\ eventID (mSubEventInfo m) = -1)
   <-> (mMaxEvents d <= mEventCounter d /\ mNeedNewEvent d = true)).
Proof.
  cbv zeta.
  match goal with |- (_ /\ _ /\ (_ -> joins ?d ?d1)) /\ _ =>
    assert (Hec : 0 <= mEventCounter d) by (vm_compute; discriminate);
    assert (Hmax : mMaxEvents d <= INT_MAX) by (vm_compute; discriminate);
    assert (Hjoins : mNeedNewEvent d = true -> joins d d1)
      by (intros _; exists []; vm_compute; reflexivity)
  end.
  split; [tauto|].
  exact (sentinel_iff_no_work _ _ 1 Hec Hmax Hjoins).
Defined.

(** ** The generator cache (C4) *)

Section Cache.
Context `{External}.

(** The guard of the cache lookup holds for every name: no name is equal
    to both "extkin" and "extkinO2". *)
Lemma lookup_guard_always name : lookup_guard name = true.
Proof.
  unfold lookup_guard.
  destruct (String.eqb_spec name "extkin") as [->|]; reflexivity.
Qed.

Lemma initGenerator_reuses_cached (d : Device) p g :
  mPrimGeneratorCache d !! mGenerator (mSimConfig d) = Some p ->
  generators d !! p = Some g ->
  exists d',
    initGenerator d = Ok (tt, [], d') /\
    mPrimGen d' = Some p /\
    length (generators d') = length (generators d) /\
    mPrimGeneratorCache d' = mPrimGeneratorCache d /\
    mStack d' = (GenerateEvent g).1.1.
Proof.
  intros Hcache Hgen.
  unfold initGenerator. run_monad.
  rewrite lookup_guard_always. simpl. rewrite Hcache. simpl.
  unfold generateEvent. run_monad. rewrite Hgen.
  destruct (GenerateEvent g) as [[prims header] g']. run_monad.
  eexists. split; [reflexivity|]. simpl.
  rewrite length_insert. done.
Qed.


End Cache.

(** C4 is violated by the code.  A server started as a service with the
    generator "extkin" serves its event and sends the sentinel; it is then
    reconfigured, again with "extkin" and with another kinematics file.  The
    generator used afterwards is the cached one (position 0 of the memory,
    no second generator is made): the first event of the new batch is the
    generator's third event. *)
Theorem cached_extkin_generator_reused :
  let r0 := started (H := scripted [[1]; [2]; [3]]%nat) (options "extkin" 1 500 true) in
  let r1 := and_then r0 (ConditionalRun (Some "primrequest") 1 None) in
  let r2 := and_then r1 (ConditionalRun (Some "primrequest") 1
                           (Some (reconfiguration "extkin" "other.root" 1))) in
  let r3 := and_then r2 (ConditionalRun (Some "primrequest") 1 None) in
  let d0 := O2PrimaryServerDevice (config "extkin" 1) in
  replies r1 = [(1, 1, 1, [1%nat])] /\
  mPrimGen (device_of r1 d0) = Some 0%nat /\
  replies r2 = [(-1, 1, 1, [])] /\
  mGeneratorThread (device_of r2 d0) = Some JobInitGenerator /\
  mGenerator (mSimConfig (device_of r2 d0)) = "extkin" /\
  mExtKinFileName (mSimConfig (device_of r2 d0)) = "other.root" /\
  replies r3 = [(1, 1, 1, [3%nat])] /\
  mPrimGen (device_of r3 d0) = Some 0%nat /\
  length (generators (device_of r3 d0)) = 1%nat.
Proof. vm_compute. repeat split. Qed.


(** ** Unknown requests (C5) *)

Section Unknown.
Context `{External}.

Lemma HandleRequest_unknown requeststring code (d : Device) :
  requeststring <> "configrequest" ->
  requeststring <> "primrequest" ->
  HandleRequest requeststring code d = Ok (true, [], d).
Proof.
  intros Hconf Hprim. unfold HandleRequest.
  destruct (String.eqb_spec requeststring "configrequest"); [done|].
  destruct (String.eqb_spec requeststring "primrequest"); [done|].
  reflexivity.
Qed.


(** C5 is violated by the code: a request which is neither "configrequest"
    nor "primrequest" is logged and [HandleRequest] returns true; nothing is
    sent and the device is unchanged. *)
Theorem unknown_request_gets_no_reply code (d : Device) :
  HandleRequest "statusrequest" code d = Ok (true, [], d).
Proof. reflexivity. Qed.


End Unknown.

(** ** Reconfiguration (C7) *)

Section Reconfiguration.
Context `{External}.

Lemma ReInit_stop reconfig (d : Device) :
  stop reconfig = true -> ReInit reconfig d = Ok (false, [], d).
Proof. intros Hstop. unfold ReInit. rewrite Hstop. reflexivity. Qed.

Lemma ReInit_resets reconfig (d : Device) :
  stop reconfig = false ->
  mGeneratorThread d = None ->
  exists d',
    ReInit reconfig d = Ok (true, [], d') /\
    mEventCounter d' = 0 /\ mPartCounter d' = 0 /\ mNeedNewEvent d' = true /\
    mMaxEvents d' = to_int (nEvents reconfig) /\
    mInitialSeed d' = to_int (setGRandomSeed (to_int (startSeed reconfig))) /\
    mGenerator (mSimConfig d') = generator reconfig /\
    mGeneratorThread d' = Some JobInitGenerator.
Proof.
  intros Hstop Hthr. unfold ReInit. rewrite Hstop.
  unfold launch. run_monad. rewrite Hthr. simpl.
  eexists. split; [reflexivity|]. done.
Qed.

Lemma ReInit_joinable_terminates reconfig (d : Device) job :
  stop reconfig = false ->
  mGeneratorThread d = Some job ->
  ReInit reconfig d = Fault Terminate.
Proof.
  intros Hstop Hthr. unfold ReInit. rewrite Hstop.
  unfold launch. run_monad. rewrite Hthr. reflexivity.
Qed.

End Reconfiguration.

(** C7 is violated by the code when the generator thread is joinable.  A
    server running as a service answers its first request with the only
    part of the first event and starts the generation of the next event;
    the send of the reply fails, so the server goes idle and waits for
    control input; [ReInit] with [stop = false] then assigns a new thread to
    [mGeneratorThread], which is still joinable: [std::terminate]. *)
Theorem reinit_after_failed_send_terminates :
  and_then (H := scripted [[1]; [2]]%nat)
    (started (options "pythia8" 2 500 true))
    (ConditionalRun (Some "primrequest") (-2)
       (Some (reconfiguration "pythia8" "" 2)))
  = Fault Terminate.
Proof. vm_compute. reflexivity. Qed.

(** ** Well-formed devices: the pending generation completes *)

Section WellFormed.
Context `{External}.

Lemma generateEvent_ready (d : Device) :
  generator_ready d ->
  exists d1,
    generateEvent d = Ok (tt, [], d1) /\
    generator_ready d1 /\
    (cache_valid d -> cache_valid d1) /\
    mGeneratorThread d1 = mGeneratorThread d.
Proof.
  intros (p & Hp & Hlt).
  destruct (lookup_lt_is_Some_2 (generators d) p Hlt) as [g Hg].
  unfold generateEvent. run_monad. rewrite Hp, Hg.
  destruct (GenerateEvent g) as [[prims header] g']. run_monad.
  eexists. split; [reflexivity|].
  unfold generator_ready, cache_valid. simpl. rewrite length_insert.
  split; [by exists p|]. done.
Qed.

Lemma initGenerator_ready (d : Device) :
  cache_valid d ->
  exists d1,
    initGenerator d = Ok (tt, [], d1) /\
    generator_ready d1 /\
    cache_valid d1 /\
    mGeneratorThread d1 = mGeneratorThread d.
Proof.
  intros Hcache.
  unfold initGenerator. run_monad.
  rewrite lookup_guard_always. simpl.
  destruct (mPrimGeneratorCache d !! mGenerator (mSimConfig d)) as [p|] eqn:Hhit;
    simpl.
  - match goal with |- context [generateEvent ?d2] =>
      destruct (generateEvent_ready d2) as (d1 & -> & Hready & Hvalid & Hthr)
    end.
    { exists p. split; [reflexivity|]. simpl. eapply Hcache, Hhit. }
    exists d1. split; [reflexivity|]. split; [exact Hready|].
    split; [apply Hvalid; exact Hcache|exact Hthr].
  - match goal with |- context [generateEvent ?d2] =>
      destruct (generateEvent_ready d2) as (d1 & -> & Hready & Hvalid & Hthr)
    end.
    { eexists. split; [reflexivity|]. simpl. rewrite length_app. simpl. lia. }
    exists d1. split; [reflexivity|]. split; [exact Hready|].
    split; [|exact Hthr]. apply Hvalid.
    intros name p. simpl. rewrite length_app. simpl.
    destruct (decide (mGenerator (mSimConfig d) = name)) as [->|Hne].
    + rewrite lookup_insert_eq. intros [= <-]. lia.
    + rewrite lookup_insert_ne by done. intros Hp. apply Hcache in Hp. lia.
Qed.

(** In a well-formed device the pending generation completes. *)
Lemma wf_joins (d : Device) :
  wf_device d ->
  exists d1, joins d d1 /\ cache_valid d1 /\
    (generator_ready d \/ mGeneratorThread d <> None -> generator_ready d1).
Proof.
  intros [Hcache Hready]. unfold joins, join_if_joinable. run_monad.
  destruct (mGeneratorThread d) as [[|]|] eqn:Hthr; simpl.
  - destruct (initGenerator_ready d Hcache) as (d1 & -> & Hready1 & Hcache1 & _).
    eexists. split; [by eexists|]. done.
  - destruct Hready as [[? _]|Hready]; [done|].
    destruct (generateEvent_ready d Hready) as (d1 & -> & Hready1 & Hcache1 & _).
    eexists. split; [by eexists|]. split; [by apply Hcache1|done].
  - exists d. split; [by eexists|]. split; [done|]. intros [|]; done.
Qed.

Lemma joins_functional (d d1 d1' : Device) : joins d d1 -> joins d d1' -> d1 = d1'.
Proof. intros [o Hj] [o' Hj']. congruence. Qed.

Lemma HandleRequest_config code (d : Device) :
  HandleRequest "configrequest" code d
  = Ok (true, [Sent (ConfigReply (mSimConfig d))], d).
Proof. reflexivity. Qed.

(** The device which a "primrequest" leaves. *)
Lemma HandleRequest_device (d : Device) code more out d' :
  HandleRequest "primrequest" code d = Ok (more, out, d') ->
  exists d1,
    (if mNeedNewEvent d then joins d d1 else d1 = d) /\
    let d2 := if mNeedNewEvent d then start_event d1 else d in
    d' = if negb ((mMaxEvents d <=? mEventCounter d) && mNeedNewEvent d)
         then after_part d2 else d2.
Proof.
  intros Hreq.
  unfold HandleRequest in Hreq. simpl in Hreq. run_monad.
  unfold after_part, parts_of, stack_size.
  destruct (mNeedNewEvent d) eqn:Hneed; simpl in Hreq.
  - destruct (join_if_joinable d) as [[[[] o] d1]|] eqn:Hjoin; [|discriminate].
    simpl in Hreq.
    exists d1. split; [by exists o|].
    destruct (mMaxEvents d <=? mEventCounter d) eqn:Hle; simpl in *.
    + destruct (0 <? code); by injection Hreq as <- <- <-.
    + destruct (copy_range _ _ _) as [ps|] eqn:Hcopy; [|discriminate].
      simpl in Hreq.
      repeat case_if_in Hreq;
        unfold launch in Hreq; run_monad;
        try (destruct (mGeneratorThread d1); [discriminate|]; simpl in Hreq);
        injection Hreq as <- <- <-;
        repeat match goal with Heq : _ = _ |- _ => rewrite Heq end; reflexivity.
  - rewrite andb_false_r in *. simpl in *.
    exists d. split; [done|].
    destruct (copy_range _ _ _) as [ps|] eqn:Hcopy; [|discriminate].
    simpl in Hreq.
    repeat case_if_in Hreq;
      unfold launch in Hreq; run_monad;
      try (destruct (mGeneratorThread d); [discriminate|]; simpl in Hreq);
      injection Hreq as <- <- <-;
      repeat match goal with Heq : _ = _ |- _ => rewrite Heq end; reflexivity.
Qed.

(** Requests, reconfigurations and the serving loop keep the device
    well-formed. *)
Lemma HandleRequest_wf requeststring code (d : Device) more out d' :
  wf_device d ->
  HandleRequest requeststring code d = Ok (more, out, d') ->
  wf_device d'.
Proof.
  intros Hwf Hreq.
  destruct (String.eqb_spec requeststring "configrequest") as [->|Hconf].
  { rewrite HandleRequest_config in Hreq. by injection Hreq as <- <- <-. }
  destruct (String.eqb_spec requeststring "primrequest") as [->|Hprim].
  2:{ rewrite HandleRequest_unknown in Hreq by done. by injection Hreq as <- <- <-. }
  destruct (HandleRequest_device _ _ _ _ _ Hreq) as (d1 & Hd1 & Hd').
  assert (cache_valid d1 /\ generator_ready d1) as [Hcache Hready].
  { destruct (mNeedNewEvent d) eqn:Hneed.
    - destruct (wf_joins d Hwf) as (d1' & Hjoins & Hcache & Hready).
      rewrite (joins_functional _ _ _ Hd1 Hjoins). split; [exact Hcache|].
      apply Hready. destruct Hwf as [_ [[Hthr _]|Hr]]; [right; by rewrite Hthr|by left].
    - subst d1. destruct Hwf as [Hcache [[_ ?]|Hready]]; [congruence|done]. }
  assert (Hgoal : forall d2 : Device,
            cache_valid d2 -> generator_ready d2 -> wf_device d2)
    by (intros d2 ? ?; split; [done|by right]).
  cbv zeta in Hd'. subst d'. unfold after_part.
  destruct (mNeedNewEvent d); simpl; repeat case_if; subst; apply Hgoal;
    unfold cache_valid, generator_ready in *; simpl; assumption.
Qed.

Lemma ReInit_wf reconfig (d : Device) more out d' :
  wf_device d -> ReInit reconfig d = Ok (more, out, d') -> wf_device d'.
Proof.
  intros Hwf. unfold ReInit.
  destruct (stop reconfig); [by intros [= <- <- <-]|].
  unfold launch. run_monad.
  destruct (mGeneratorThread d); [discriminate|]. simpl.
  intros [= <- <- <-]. destruct Hwf as [Hcache _].
  split; [exact Hcache|]. by left.
Qed.

Lemma ConditionalRun_wf request code control (d : Device) more out d' :
  wf_device d ->
  ConditionalRun request code control d = Ok (more, out, d') ->
  wf_device d'.
Proof.
  intros Hwf. unfold ConditionalRun.
  destruct request as [requeststring|]; [|by intros [= <- <- <-]].
  run_monad.
  destruct (HandleRequest requeststring code d) as [[[more1 out1] d1]|] eqn:Hreq;
    [|discriminate].
  apply HandleRequest_wf in Hreq; [|exact Hwf].
  assert (Hset : forall s (d2 : Device), wf_device d2 -> wf_device (set_mState s d2))
    by (intros s d2 Hd2; exact Hd2).
  destruct more1; simpl.
  - intros [= <- <- <-]. by apply Hset.
  - destruct (mAsService d1).
    + unfold waitForControlInput. run_monad.
      destruct control as [reconfig|]; simpl.
      * destruct (ReInit reconfig (set_mState Idle d1)) as [[[more2 out2] d2]|] eqn:Hre;
          [|discriminate].
        apply ReInit_wf in Hre; [|by apply Hset]. simpl.
        destruct more2; intros [= <- <- <-]; by apply Hset.
      * intros [= <- <- <-]. by do 2 apply Hset.
    + simpl. intros [= <- <- <-]. by do 2 apply Hset.
Qed.

Lemma started_wf vm d out :
  started vm = Ok (tt, out, d) -> wf_device d.
Proof.
  unfold started, InitTask, launch. run_monad.
  destruct (opt_pipe vm); intros [= <- <-];
    (split; [intros name p; simpl; by rewrite lookup_empty | by left]).
Qed.

Lemma wf_joined (d : Device) : wf_device d -> joins d (joined d).
Proof.
  intros Hwf. destruct (wf_joins d Hwf) as (d1 & [o Hjoin] & _).
  exists o. unfold joined. rewrite Hjoin. reflexivity.
Qed.

(** The event counter stays non-negative. *)
Lemma HandleRequest_eventCounter requeststring code (d : Device) more out d' :
  0 <= mEventCounter d < INT_MAX ->
  HandleRequest requeststring code d = Ok (more, out, d') ->
  0 <= mEventCounter d'.
Proof.
  intros Hec Hreq.
  destruct (String.eqb_spec requeststring "configrequest") as [->|Hconf].
  { rewrite HandleRequest_config in Hreq. injection Hreq as <- <- <-. lia. }
  destruct (String.eqb_spec requeststring "primrequest") as [->|Hprim].
  2:{ rewrite HandleRequest_unknown in Hreq by done. injection Hreq as <- <- <-. lia. }
  destruct (HandleRequest_device _ _ _ _ _ Hreq) as (d1 & Hd1 & Hd').
  cbv zeta in Hd'. subst d'. unfold after_part.
  destruct (mNeedNewEvent d).
  - destruct Hd1 as [o Hjoin].
    destruct (join_frame _ _ _ _ Hjoin) as (_ & _ & _ & _ & _ & _ & _ & _ & Hec1).
    repeat case_if; simpl; rewrite Hec1, to_int_id;
      unfold int_range, INT_MIN, INT_MAX in *; lia.
  - subst d1. repeat case_if; simpl; lia.
Qed.

End WellFormed.

(** ** The worker's status poll (C8) *)

Section Polling.
Variable state_code : O2PrimaryServerState -> Z.
Hypothesis state_code_inj : forall s t, state_code s = state_code t -> s = t.

Lemma isWorkAvailable_true sendcode code state :
  isWorkAvailable state_code sendcode code state = true <->
  0 < sendcode /\ 0 < code /\
  (state = state_code ReadyToServe \/ state = state_code Initializing \/
   state = state_code WaitingEvent).
Proof.
  unfold isWorkAvailable.
  destruct (Z.ltb_spec 0 sendcode); [|split; [done|lia]].
  destruct (Z.ltb_spec 0 code); [|split; [done|lia]].
  destruct (Z.eqb_spec state (state_code ReadyToServe)); [tauto|].
  destruct (Z.eqb_spec state (state_code Initializing)); [tauto|].
  destruct (Z.eqb_spec state (state_code WaitingEvent)); [tauto|].
  destruct (state =? state_code Idle); split; try done; intros (_ & _ & [|[|]]); done.
Qed.


(** C8.  The status poll returns true exactly for the states Initializing,
    WaitingEvent and ReadyToServe (when the probe was sent and the answer
    received); it returns false for Idle, for any other state code, and
    whenever the send or the receive fails.  (Distinct states have distinct
    codes.) *)
Theorem isWorkAvailable_states sendcode code :
  (forall s : O2PrimaryServerState,
     isWorkAvailable state_code sendcode code (state_code s) = true <->
     0 < sendcode /\ 0 < code /\
     (s = Initializing \/ s = WaitingEvent \/ s = ReadyToServe)) /\
  isWorkAvailable state_code sendcode code (state_code Idle) = false /\
  (forall state : Z,
     state <> state_code Initializing -> state <> state_code WaitingEvent ->
     state <> state_code ReadyToServe ->
     isWorkAvailable state_code sendcode code state = false) /\
  (forall state : Z,
     sendcode <= 0 \/ code <= 0 ->
     isWorkAvailable state_code sendcode code state = false).
Proof.
  assert (Hstates : forall s : O2PrimaryServerState,
     isWorkAvailable state_code sendcode code (state_code s) = true <->
     0 < sendcode /\ 0 < code /\
     (s = Initializing \/ s = WaitingEvent \/ s = ReadyToServe)).
  { intros s. rewrite isWorkAvailable_true. split.
    - intros (? & ? & [Hs|[Hs|Hs]]); apply state_code_inj in Hs; tauto.
    - intros (? & ? & [Hs|[Hs|Hs]]); subst s; tauto. }
  split; [exact Hstates|]. split.
  { apply not_true_is_false. rewrite Hstates. intros (_ & _ & [|[|]]); done. }
  split.
  - intros state H1 H2 H3. apply not_true_is_false.
    rewrite isWorkAvailable_true. tauto.
  - intros state Hfail. apply not_true_is_false.
    rewrite isWorkAvailable_true. lia.
Qed.


End Polling.

Lemma code_in_order_inj s t : code_in_order s = code_in_order t -> s = t.
Proof. destruct s, t; simpl; intros Heq; try reflexivity; discriminate. Qed.

Lemma isWorkAvailable_states_witness :
  (forall s t, code_in_order s = code_in_order t -> s = t) /\
  ((forall s : O2PrimaryServerState,
      isWorkAvailable code_in_order 1 4 (code_in_order s) = true <->
      0 < 1 /\ 0 < 4 /\
      (s = Initializing \/ s = WaitingEvent \/ s = ReadyToServe)) /\
   isWorkAvailable code_in_order 1 4 (code_in_order Idle) = false /\
   (forall state : Z,
      state <> code_in_order Initializing -> state <> code_in_order WaitingEvent ->
      state <> code_in_order ReadyToServe ->
      isWorkAvailable code_in_order 1 4 state = false) /\
   (forall state : Z,
      1 <= 0 \/ 4 <= 0 ->
      isWorkAvailable code_in_order 1 4 state = false)).
Proof.
  split; [exact code_in_order_inj|].
  exact (isWorkAvailable_states code_in_order code_in_order_inj 1 4).
Defined.

(** ** The worker's kernel (C9) *)

Section KernelLoop.
Context `{External}.
Variable state_code : O2PrimaryServerState -> Z.

(** The loop makes at most three receives: more fuel changes nothing. *)
Lemma receive_loop_fuel mcEngine Receive (fuel trial : nat) :
  (trial <= 2)%nat -> (3 <= fuel + trial)%nat ->
  receive_loop fuel mcEngine Receive trial
  = receive_loop (3 - trial) mcEngine Receive trial.
Proof.
  revert trial. induction fuel as [|fuel IH]; intros trial Htrial Hfuel; [lia|].
  replace (3 - trial)%nat with (S (3 - S trial)) by lia. simpl.
  destruct (Receive trial) as [code chunk].
  destruct (Z.leb_spec (Z.of_nat (S trial)) 2) as [Hle|Hgt].
  - rewrite IH by lia. reflexivity.
  - rewrite !andb_false_r. reflexivity.
Qed.

(** After [k <= 2] receives which return -1, a receive which succeeds
    ends the loop. *)
Lemma receive_loop_chunk mcEngine Receive (k : nat) : forall (fuel trial : nat) code chunk,
  (k < fuel)%nat -> (trial + k <= 2)%nat ->
  (forall j, (j < k)%nat -> (Receive (trial + j)%nat).1 = -1) ->
  Receive (trial + k)%nat = (code, chunk) -> 0 < code ->
  receive_loop fuel mcEngine Receive trial
  = if is_sentinel chunk then (false, [])
    else (true, process_chunk mcEngine chunk).
Proof.
  induction k as [|k IH]; intros fuel trial code chunk Hfuel Htrial Hfail Hrecv Hcode;
    (destruct fuel as [|fuel]; [lia|]); simpl.
  - rewrite Nat.add_0_r in Hrecv. rewrite Hrecv.
    destruct (Z.ltb_spec 0 code); [|lia].
    destruct (is_sentinel chunk); [reflexivity|].
    destruct (Z.eqb_spec code (-1)); [lia|]. reflexivity.
  - pose proof (Hfail O ltac:(lia)) as Hfirst. rewrite Nat.add_0_r in Hfirst.
    destruct (Receive trial) as [code0 chunk0]. simpl in Hfirst. subst code0.
    simpl.
    replace (Z.of_nat (S trial) <=? 2) with true by (symmetry; apply Z.leb_le; lia).
    apply (IH fuel (S trial) code chunk); try lia.
    + intros j Hj. replace (S trial + j)%nat with (trial + S j)%nat by lia.
      apply Hfail. lia.
    + replace (S trial + k)%nat with (trial + S k)%nat by lia. exact Hrecv.
Qed.


(** C9.  When the server is worth asking, the request has been sent and a
    receive (the first, or one after at most two receives which returned -1)
    delivers a chunk: if the chunk has no primaries and [eventID = -1] the
    kernel returns false without touching the engine; any other chunk is
    handed to the transport engine -- [setPrimaries] with its particles,
    [setSubEventInfo] with its info, [SetSeed] with its seed, then
    [ProcessEvent] for the engine "TGeant4" and [ProcessRun(1)] for any
    other, in this order and nothing else -- and the kernel returns true. *)
Theorem Kernel_on_chunk statuschannel sendcode Receive mcEngine (k : nat) code chunk :
  match statuschannel with
  | Some poll =>
      isWorkAvailable state_code (poll_sendcode poll) (poll_code poll)
        (poll_state poll) = true
  | None => True
  end ->
  0 < sendcode ->
  (k <= 2)%nat ->
  (forall j, (j < k)%nat -> (Receive j).1 = -1) ->
  Receive k = (code, chunk) ->
  0 < code ->
  (mParticles chunk = [] /\ eventID (mSubEventInfo chunk) = -1 ->
   Kernel state_code statuschannel sendcode Receive mcEngine
   = (false, [setSimDataChannel])) /\
  (~ (mParticles chunk = [] /\ eventID (mSubEventInfo chunk) = -1) ->
   Kernel state_code statuschannel sendcode Receive mcEngine
   = (true,
      [setSimDataChannel;
       setPrimaries (mParticles chunk);
       setSubEventInfo (mSubEventInfo chunk);
       SetSeed (seed (mSubEventInfo chunk));
       if String.eqb mcEngine "TGeant4" then ProcessEvent else ProcessRun 1])).
Proof.
  intros Hstatus Hsend Hk Hfail Hrecv Hcode.
  assert (Hloop : receive_loop 3 mcEngine Receive 0
                  = if is_sentinel chunk then (false, [])
                    else (true, process_chunk mcEngine chunk)).
  { apply (receive_loop_chunk mcEngine Receive k 3 0 code chunk); try lia; done. }
  unfold Kernel.
  replace (negb _) with false.
  2:{ destruct statuschannel; [rewrite Hstatus|]; reflexivity. }
  destruct (Z.ltb_spec 0 sendcode); [|lia].
  rewrite Hloop.
  pose proof (is_sentinel_spec chunk) as Hspec.
  destruct (is_sentinel chunk); split; intros Hshape; try reflexivity.
  - destruct Hshape. by apply Hspec.
  - apply Hspec in Hshape. discriminate.
Qed.

End KernelLoop.

Lemma Kernel_on_chunk_witness :
  let poll := {| poll_sendcode := 1; poll_code := 4; poll_state := 1 |} in
  (isWorkAvailable code_in_order (poll_sendcode poll) (poll_code poll)
     (poll_state poll) = true /\
   0 < 11 /\ (1 <= 2)%nat /\
   (forall j, (j < 1)%nat -> (second_receive j).1 = -1) /\
   second_receive 1 = (50, one_primary_chunk) /\ 0 < 50) /\
  ((mParticles one_primary_chunk = [] /\
    eventID (mSubEventInfo one_primary_chunk) = -1 ->
    Kernel code_in_order (Some poll) 11 second_receive "TGeant4"
    = (false, [setSimDataChannel])) /\
   (~ (mParticles one_primary_chunk = [] /\
       eventID (mSubEventInfo one_primary_chunk) = -1) ->
    Kernel code_in_order (Some poll) 11 second_receive "TGeant4"
    = (true,
       [setSimDataChannel;
        @setPrimaries (scripted []) [7%nat];
        setSubEventInfo (mSubEventInfo one_primary_chunk);
        SetSeed 2;
        ProcessEvent]))).
Proof.
  cbv zeta.
  assert (Hfail : forall j, (j < 1)%nat -> (second_receive j).1 = -1).
  { intros [|j] Hj; [reflexivity|lia]. }
  split.
  - repeat split; try reflexivity; try lia. exact Hfail.
  - exact (Kernel_on_chunk code_in_order
             (Some {| poll_sendcode := 1; poll_code := 4; poll_state := 1 |})
             11 second_receive "TGeant4" 1 50 one_primary_chunk
             eq_refl eq_refl (le_S _ _ (le_n 1)) Hfail eq_refl eq_refl).
Defined.

(** * Further properties of the code *)

(** ** The generator cache, hit and miss *)

Section CacheHitMiss.
Context `{External}.

(** The generator which [initGenerator] makes for a configuration. *)
Lemma initGenerator_miss (d : Device) :
  mPrimGeneratorCache d !! mGenerator (mSimConfig d) = None ->
  exists d',
    initGenerator d = Ok (tt, [], d') /\
    mPrimGen d' = Some (length (generators d)) /\
    generators d'
    = generators d ++ [(GenerateEvent (made_generator (mSimConfig d))).2] /\
    mPrimGeneratorCache d'
    = <[mGenerator (mSimConfig d) := length (generators d)]> (mPrimGeneratorCache d) /\
    mStack d' = (GenerateEvent (made_generator (mSimConfig d))).1.1 /\
    mEventHeader d' = (GenerateEvent (made_generator (mSimConfig d))).1.2.
Proof.
  intros Hcache. unfold made_generator.
  unfold initGenerator. run_monad.
  rewrite lookup_guard_always. simpl. rewrite Hcache. simpl.
  unfold generateEvent. run_monad.
  rewrite lookup_app_r by lia. rewrite Nat.sub_diag. simpl.
  destruct (GenerateEvent _) as [[prims header] g']. run_monad.
  eexists. split; [reflexivity|]. simpl.
  repeat split.
  rewrite insert_app_r_alt by lia. rewrite Nat.sub_diag. reflexivity.
Qed.

(** X1. When the cache holds a generator for the configured name,
    [initGenerator] makes that generator the current one, generates the
    next event of that generator onto the stack, and makes no new generator:
    the cache and every other generator are as before. *)
Theorem initGenerator_cache_hit (d : Device) (p : nat) (g : PrimaryGenerator) :
  mPrimGeneratorCache d !! mGenerator (mSimConfig d) = Some p ->
  generators d !! p = Some g ->
  exists d',
    initGenerator d = Ok (tt, [], d') /\
    mPrimGen d' = Some p /\
    generators d' = <[p := (GenerateEvent g).2]> (generators d) /\
    mPrimGeneratorCache d' = mPrimGeneratorCache d /\
    mStack d' = (GenerateEvent g).1.1 /\
    mEventHeader d' = (GenerateEvent g).1.2.
Proof.
  intros Hcache Hgen.
  unfold initGenerator. run_monad.
  rewrite lookup_guard_always. simpl. rewrite Hcache. simpl.
  unfold generateEvent. run_monad. rewrite Hgen.
  destruct (GenerateEvent g) as [[prims header] g']. run_monad.
  eexists. split; [reflexivity|]. done.
Qed.

(** X2. When the cache holds no generator for the configured name,
    [initGenerator] makes a new one -- configured from [mSimConfig],
    embedded into the embedding file if one is named, and initialised --
    appends it to the generators in memory, stores it in the cache under
    the name, and generates its first event onto the stack. *)
Theorem initGenerator_cache_miss (d : Device) :
  mPrimGeneratorCache d !! mGenerator (mSimConfig d) = None ->
  let conf := mSimConfig d in
  let made := setPrimaryGenerator conf newPrimaryGenerator in
  let g := Init (if String.eqb (mEmbedIntoFileName conf) "" then made
                 else embedInto (mEmbedIntoFileName conf) made) in
  exists d',
    initGenerator d = Ok (tt, [], d') /\
    mPrimGen d' = Some (length (generators d)) /\
    generators d' = generators d ++ [(GenerateEvent g).2] /\
    mPrimGeneratorCache d'
    = <[mGenerator conf := length (generators d)]> (mPrimGeneratorCache d) /\
    mStack d' = (GenerateEvent g).1.1 /\
    mEventHeader d' = (GenerateEvent g).1.2.
Proof. intros Hcache. exact (initGenerator_miss d Hcache). Qed.

End CacheHitMiss.

(** X1 on a device whose cache holds a generator with two events to come. *)
Lemma initGenerator_cache_hit_witness :
  let d := cached_device in
  (mPrimGeneratorCache d !! mGenerator (mSimConfig d) = Some 0%nat /\
   generators d !! 0%nat = Some [[7; 8]; [9]]%nat) /\
  exists d',
    initGenerator d = Ok (tt, [], d') /\
    mPrimGen d' = Some 0%nat /\
    generators d' = <[0%nat := [[9%nat]]]> (generators d) /\
    mPrimGeneratorCache d' = mPrimGeneratorCache d /\
    mStack d' = [7; 8]%nat /\
    mEventHeader d' = tt.
Proof.
  assert (Hcache : mPrimGeneratorCache cached_device
                     !! mGenerator (mSimConfig cached_device) = Some 0%nat)
    by reflexivity.
  assert (Hgen : generators cached_device !! 0%nat = Some [[7; 8]; [9]]%nat)
    by reflexivity.
  split; [by split|].
  exact (initGenerator_cache_hit cached_device 0 [[7; 8]; [9]]%nat Hcache Hgen).
Defined.

(** X2 on the device as constructed, whose cache is empty. *)
Lemma initGenerator_cache_miss_witness :
  let d := O2PrimaryServerDevice (H := scripted [[1; 2]; [3]]%nat) (config "pythia8" 2) in
  mPrimGeneratorCache d !! mGenerator (mSimConfig d) = None /\
  exists d',
    initGenerator d = Ok (tt, [], d') /\
    mPrimGen d' = Some 0%nat /\
    generators d' = [[[3%nat]]] /\
    mPrimGeneratorCache d' = <["pythia8" := 0%nat]> ∅ /\
    mStack d' = [1; 2]%nat /\
    mEventHeader d' = tt.
Proof.
  intros d.
  assert (Hcache : mPrimGeneratorCache d !! mGenerator (mSimConfig d) = None)
    by reflexivity.
  split; [exact Hcache|].
  exact (initGenerator_cache_miss d Hcache).
Defined.

(** ** The number of parts is the least which covers the event *)

(** X3. For an event of [n <= INT_MAX] primaries and a chunk size
    [g >= 1], [numberofparts] parts of [g] primaries cover the event and no
    smaller number of parts (at least one) does. *)
Theorem numberofparts_least (n g : Z) :
  0 <= n <= INT_MAX -> 1 <= g ->
  1 <= numberofparts n g /\
  n <= numberofparts n g * g /\
  forall N, 1 <= N -> n <= N * g -> numberofparts n g <= N.
Proof.
  intros Hn Hg. rewrite numberofparts_exact by done.
  pose proof (ceil_div_spec n g Hg) as [Hlo Hhi].
  split; [lia|]. split; [nia|].
  intros N HN Hcover. nia.
Qed.

(** X3 for 1200 primaries in chunks of 500. *)
Lemma numberofparts_least_witness :
  (0 <= 1200 <= INT_MAX /\ 1 <= 500) /\
  1 <= numberofparts 1200 500 /\
  1200 <= numberofparts 1200 500 * 500 /\
  forall N, 1 <= N -> 1200 <= N * 500 -> numberofparts 1200 500 <= N.
Proof.
  assert (Hn : 0 <= 1200 <= INT_MAX) by (unfold INT_MAX; lia).
  assert (Hg : 1 <= 500) by lia.
  split; [by split|].
  exact (numberofparts_least 1200 500 Hn Hg).
Defined.

(** ** The copy loop outside the event *)

Section CopyLoop.

Lemma copy_loop_outside {A} (prims : list A) k : forall index acc,
  0 <= index -> index + Z.of_nat (S k) <= INT_MAX ->
  Z.of_nat (length prims) < index + Z.of_nat (S k) ->
  copy_loop prims index (S k) acc = None.
Proof.
  induction k as [|k IH]; intros index acc Hlo Hint Hout;
    cbn [copy_loop];
    (destruct (Z.ltb_spec index 0) as [|_]; [lia|]);
    destruct (prims !! Z.to_nat index) as [p|] eqn:Hp; try reflexivity;
    apply lookup_lt_Some in Hp.
  - lia.
  - rewrite to_int_id by (unfold int_range, INT_MIN, INT_MAX in *; lia).
    apply IH; lia.
Qed.

(** X4. The copy loop of [HandleRequest] reads outside the vector of
    primaries exactly when the slice is not empty and its end lies beyond
    the size of the vector; otherwise it copies the slice. *)
Theorem copy_reads_outside_iff {A} (prims : list A) (p g : Z) :
  let n := Z.of_nat (length prims) in
  (copy_range prims (startindex n p g) (endindex n p g) = None <->
   startindex n p g < endindex n p g /\ n < endindex n p g) /\
  (~ (startindex n p g < endindex n p g /\ n < endindex n p g) ->
   copy_range prims (startindex n p g) (endindex n p g)
   = Some (take (Z.to_nat (endindex n p g - startindex n p g))
             (drop (Z.to_nat (startindex n p g)) prims))).
Proof.
  intros n.
  destruct (bounds_int n p g) as [Hs He].
  destruct (Z.le_gt_cases (endindex n p g) (startindex n p g)) as [Hempty|Hsome].
  { rewrite copy_range_empty by exact Hempty.
    replace (Z.to_nat (endindex n p g - startindex n p g)) with 0%nat by lia.
    rewrite take_0. split; [split; [discriminate|lia]|done]. }
  destruct (Z.le_gt_cases (endindex n p g) n) as [Hin|Hout].
  { rewrite copy_range_in_bounds by (fold n; lia).
    split; [split; [discriminate|lia]|done]. }
  split; [|lia].
  split; [lia|]. intros _. unfold copy_range.
  destruct (Z.to_nat (endindex n p g - startindex n p g)) as [|k] eqn:Hk; [lia|].
  apply copy_loop_outside; fold n; lia.
Qed.

End CopyLoop.

(** ** The parts of an event, one by one *)

Section Parts.
Context `{External}.


Lemma tail_slice_length (prims : list Primary) g q :
  1 <= g -> 0 <= q -> q * g <= Z.of_nat (length prims) ->
  Z.of_nat (length (tail_slice prims g q))
  = Z.min g (Z.of_nat (length prims) - q * g).
Proof.
  intros Hg Hq Hlo. unfold tail_slice. cbv zeta.
  rewrite length_take, length_drop. lia.
Qed.

(** A request for a part of the event being served sends that part. *)
Lemma HandleRequest_serves_part (d : Device) code :
  mNeedNewEvent d = false ->
  mGeneratorThread d = None ->
  stack_size d <= INT_MAX ->
  1 <= mChunkGranularity d <= INT_MAX ->
  0 <= mPartCounter d < parts_of d ->
  HandleRequest "primrequest" code d
  = Ok (0 <? code,
        pipe_out d ++ [Sent (ChunkReply (chunk_at d (mPartCounter d)))],
        after_part d).
Proof.
  intros Hneed Hthr Hn Hg Hp.
  assert (Hn0 : 0 <= stack_size d <= INT_MAX) by (unfold stack_size in *; lia).
  pose proof (reached_part_product (stack_size d) (mChunkGranularity d)
                (mPartCounter d) Hn0 Hg Hp) as Hprod.
  destruct (bounds_exact (stack_size d) (mPartCounter d) (mChunkGranularity d))
    as [Hs He]; try lia.
  rewrite (HandleRequest_part d code
             (tail_slice (mStack d) (mChunkGranularity d) (mPartCounter d)));
    try done.
  rewrite Hs, He.
  rewrite copy_range_in_bounds by (fold (stack_size d); lia).
  reflexivity.
Qed.

(** The parts from the part counter on, up to the last one. *)
Lemma serve_parts_explicit (k : nat) : forall (d : Device) codes fuel,
  mNeedNewEvent d = false ->
  mGeneratorThread d = None ->
  stack_size d <= INT_MAX ->
  1 <= mChunkGranularity d <= INT_MAX ->
  0 <= mPartCounter d ->
  mPartCounter d + Z.of_nat (S k) = parts_of d ->
  (S k <= fuel)%nat ->
  serveEvent fuel codes d
  = Some (chunk_at d <$> seqZ (mPartCounter d) (Z.of_nat (S k)), event_served d).
Proof.
  induction k as [|k IH]; intros d codes fuel Hneed Hthr Hn Hg Hp Hparts Hfuel;
    (destruct fuel as [|fuel]; [lia|]);
    rewrite serveEvent_S, HandleRequest_serves_part by (try done; lia);
    rewrite sent_chunks_reply;
    pose proof (parts_bounds (stack_size d) (mChunkGranularity d) 0) as (_ & _ & HN);
      try (unfold stack_size in *; lia);
    fold (parts_of d) in HN;
    unfold after_part;
    rewrite to_int_id by (unfold int_range, INT_MIN, INT_MAX in *; lia);
    rewrite (seqZ_cons (mPartCounter d)) by lia; rewrite fmap_cons.
  - rewrite (proj2 (Z.eqb_eq _ _)) by lia. simpl.
    unfold event_served. rewrite <- Hparts. reflexivity.
  - rewrite (proj2 (Z.eqb_neq _ _)) by lia. simpl. rewrite Hneed.
    rewrite (IH (set_mPartCounter (mPartCounter d + 1) d) (fun n => codes (S n)) fuel);
      simpl; try done; try lia;
      try (unfold parts_of, stack_size in *; simpl; lia).
    replace (Z.pred (Z.of_nat (S (S k)))) with (Z.of_nat (S k)) by lia.
    replace (Z.succ (mPartCounter d)) with (mPartCounter d + 1) by lia.
    reflexivity.
Qed.

(** All parts of a new event. *)
Lemma serve_new_event (d d1 : Device) (codes : nat -> Z) (fuel : nat) :
  mNeedNewEvent d = true ->
  mEventCounter d < mMaxEvents d ->
  joins d d1 ->
  1 <= mChunkGranularity d <= INT_MAX ->
  stack_size d1 <= INT_MAX ->
  (Z.to_nat (parts_of d1) <= fuel)%nat ->
  serveEvent fuel codes d
  = Some (chunk_at (start_event d1) <$> seqZ 0 (parts_of d1),
          event_served (start_event d1)).
Proof.
  intros Hneed Hwork Hjoins Hg Hn Hfuel.
  destruct Hjoins as [o Hjoin].
  destruct (join_frame _ _ _ _ Hjoin) as (_ & Hthr & Hg1 & _).
  pose proof (parts_bounds (stack_size d1) (mChunkGranularity d1) 0) as (_ & _ & HN);
    try (unfold stack_size in *; lia).
  fold (parts_of d1) in HN.
  rewrite (serveEvent_new_event fuel codes d d1) by (try done; by exists o).
  destruct (Z.to_nat (parts_of d1)) as [|k] eqn:Hk; [lia|].
  rewrite (serve_parts_explicit k); simpl; try done; try lia;
    try (unfold parts_of, stack_size in *; simpl; lia).
  replace (Z.of_nat (S k)) with (parts_of d1) by lia.
  reflexivity.
Qed.

(** X5. When a new event is due and the event limit is not reached, the
    requests for the event are answered with chunks of at most
    [mChunkGranularity] primaries: part [q + 1] carries
    [min g (n - q g)] of the [n] primaries, so every part but the last is
    full, and the last one is not empty unless the event is. *)
Theorem served_chunk_sizes (d d1 : Device) (codes : nat -> Z) (fuel : nat) :
  mNeedNewEvent d = true ->
  mEventCounter d < mMaxEvents d ->
  joins d d1 ->
  1 <= mChunkGranularity d <= INT_MAX ->
  stack_size d1 <= INT_MAX ->
  (Z.to_nat (parts_of d1) <= fuel)%nat ->
  let g := mChunkGranularity d in
  let n := stack_size d1 in
  exists chunks d',
    serveEvent fuel codes d = Some (chunks, d') /\
    (fun m => Z.of_nat (length (mParticles m))) <$> chunks
    = (fun q => Z.min g (n - q * g)) <$> seqZ 0 (parts_of d1) /\
    Forall (fun m => Z.of_nat (length (mParticles m)) <= g) chunks /\
    (forall (q : nat) m, chunks !! q = Some m -> Z.of_nat q + 1 < parts_of d1 ->
       Z.of_nat (length (mParticles m)) = g) /\
    (0 < n -> Forall (fun m => mParticles m <> []) chunks).
Proof.
  intros Hneed Hwork Hjoins Hg Hn Hfuel g n.
  rewrite (serve_new_event d d1) by done.
  destruct Hjoins as [o Hjoin].
  destruct (join_frame _ _ _ _ Hjoin) as (_ & _ & Hg1 & _).
  assert (Hn0 : 0 <= n <= INT_MAX) by (unfold n, stack_size in *; lia).
  assert (Hlen : forall q, 0 <= q < parts_of d1 ->
            Z.of_nat (length (mParticles (chunk_at (start_event d1) q)))
            = Z.min g (n - q * g) /\ q * g <= n /\
            (q + 1 < parts_of d1 -> (q + 1) * g < n) /\
            (0 < n -> q * g < n)).
  { assert (HP : parts_of d1 = numberofparts n g)
      by (unfold parts_of; rewrite Hg1; reflexivity).
    rewrite HP. intros q Hq. unfold chunk_at. simpl. rewrite Hg1. fold g.
    destruct (parts_bounds n g q) as (Hmore & _); try lia.
    assert (Hlo : q * g <= n /\ (0 < n -> q * g < n)).
    { destruct (Z.eq_dec q 0) as [->|Hq0]; [lia|].
      destruct (parts_bounds n g (q - 1)) as (Hprev & _); lia. }
    rewrite tail_slice_length by (fold (stack_size d1); fold n; lia).
    fold (stack_size d1). fold n. repeat split; lia. }
  eexists _, _. split; [reflexivity|].
  split; [|split; [|split]].
  - rewrite <- list_fmap_compose. apply list_eq. intros i.
    rewrite !list_lookup_fmap.
    destruct (seqZ 0 (parts_of d1) !! i) as [q|] eqn:Hq; [|reflexivity].
    apply lookup_seqZ in Hq as [-> Hi]. simpl. f_equal.
    apply Hlen. lia.
  - apply Forall_fmap, Forall_forall. intros q Hq.
    apply elem_of_seqZ in Hq. unfold compose.
    destruct (Hlen q) as (-> & _); lia.
  - intros q m Hq Hnotlast.
    rewrite list_lookup_fmap in Hq.
    destruct (seqZ 0 (parts_of d1) !! q) as [q'|] eqn:Hq'; [|discriminate].
    apply lookup_seqZ in Hq' as [-> Hi]. simpl in Hq. injection Hq as <-.
    destruct (Hlen (0 + Z.of_nat q)) as (-> & _ & Hfull & _); [lia|].
    specialize (Hfull ltac:(lia)). lia.
  - intros Hpos. apply Forall_fmap, Forall_forall. intros q Hq.
    apply elem_of_seqZ in Hq. unfold compose.
    destruct (Hlen q) as (Hl & _ & _ & Hne); [lia|].
    specialize (Hne Hpos). intros Hnil.
    rewrite Hnil in Hl. simpl in Hl. lia.
Qed.

(** X6. The chunks of one event are numbered 1, 2, ... up to the number of
    parts, and all carry the same event number, number of parts, event
    limit, seed (the event number plus the initial seed) and event header;
    [index] is 0.  Afterwards the generation of the next event is pending. *)
Theorem served_chunk_infos (d d1 : Device) (codes : nat -> Z) (fuel : nat) :
  mNeedNewEvent d = true ->
  mEventCounter d < mMaxEvents d ->
  joins d d1 ->
  1 <= mChunkGranularity d <= INT_MAX ->
  stack_size d1 <= INT_MAX ->
  (Z.to_nat (parts_of d1) <= fuel)%nat ->
  let id := to_int (mEventCounter d + 1) in
  exists chunks d',
    serveEvent fuel codes d = Some (chunks, d') /\
    mSubEventInfo <$> chunks
    = (fun q => {| eventID := id;
                   maxEvents := mMaxEvents d;
                   part := q + 1;
                   nparts := Z.max 1 (ceil_div (stack_size d1) (mChunkGranularity d));
                   seed := to_int (id + mInitialSeed d);
                   index := 0;
                   mMCEventHeader := mEventHeader d1 |})
      <$> seqZ 0 (Z.max 1 (ceil_div (stack_size d1) (mChunkGranularity d))) /\
    mGeneratorThread d' = Some JobGenerateEvent /\
    mNeedNewEvent d' = true /\
    mEventCounter d' = id.
Proof.
  intros Hneed Hwork Hjoins Hg Hn Hfuel id.
  rewrite (serve_new_event d d1) by done.
  destruct Hjoins as [o Hjoin].
  destruct (join_frame _ _ _ _ Hjoin)
    as (_ & _ & Hg1 & _ & _ & Hmax & Hseed & _ & Hec).
  assert (Hparts : parts_of d1
                   = Z.max 1 (ceil_div (stack_size d1) (mChunkGranularity d))).
  { unfold parts_of. rewrite Hg1. apply numberofparts_exact;
      unfold stack_size in *; lia. }
  pose proof (ceil_div_range (stack_size d1) (mChunkGranularity d)) as Hceil.
  eexists _, _. split; [reflexivity|].
  split; [|simpl; rewrite Hec; done].
  rewrite <- list_fmap_compose, <- Hparts.
  apply list_eq. intros i. rewrite !list_lookup_fmap.
  destruct (seqZ 0 (parts_of d1) !! i) as [q|] eqn:Hq; [|reflexivity].
  apply lookup_seqZ in Hq as [-> Hi]. simpl.
  unfold chunk_info, parts_of, stack_size in *. simpl.
  rewrite Hmax, Hseed, Hec, Hg1.
  rewrite (to_int_id (0 + Z.of_nat i + 1))
    by (unfold int_range, INT_MIN, INT_MAX in *; unfold stack_size in *; lia).
  rewrite Hg1 in Hparts. rewrite Hparts. reflexivity.
Qed.

End Parts.

(** The example of five primaries served in chunks of two. *)
Lemma five_by_two_facts :
  let d := after_start (H := scripted [[10; 20; 30; 40; 50]%nat])
             (options "pythia8" 2 2 false) in
  let d1 := joined d in
  mNeedNewEvent d = true /\
  mEventCounter d < mMaxEvents d /\
  joins d d1 /\
  1 <= mChunkGranularity d <= INT_MAX /\
  stack_size d1 <= INT_MAX /\
  (Z.to_nat (parts_of d1) <= 3)%nat.
Proof.
  abstract_start [10; 20; 30; 40; 50]%nat (@nil (list nat)) 2 2.
  assert (Hsize : stack_size d1 = 5) by (unfold stack_size; rewrite Hstack; reflexivity).
  assert (Hfuel : (Z.to_nat (parts_of d1) <= 3)%nat).
  { destruct Hjoins as [o Hjoin].
    destruct (join_frame _ _ _ _ Hjoin) as (_ & _ & Hg1 & _).
    unfold parts_of. rewrite Hsize, Hg1, Hg. vm_compute. repeat constructor. }
  rewrite Hsize, Hg, Hec, Hmax. unfold INT_MAX. repeat split; try done; lia.
Qed.

(** X5 on the example: parts of 2, 2 and 1 primaries. *)
Lemma served_chunk_sizes_witness :
  let d := after_start (H := scripted [[10; 20; 30; 40; 50]%nat])
             (options "pythia8" 2 2 false) in
  let d1 := joined d in
  (mNeedNewEvent d = true /\
   mEventCounter d < mMaxEvents d /\
   joins d d1 /\
   1 <= mChunkGranularity d <= INT_MAX /\
   stack_size d1 <= INT_MAX /\
   (Z.to_nat (parts_of d1) <= 3)%nat) /\
  let g := mChunkGranularity d in
  let n := stack_size d1 in
  exists chunks d',
    serveEvent 3 (fun _ => 1) d = Some (chunks, d') /\
    (fun m => Z.of_nat (length (mParticles m))) <$> chunks
    = (fun q => Z.min g (n - q * g)) <$> seqZ 0 (parts_of d1) /\
    Forall (fun m => Z.of_nat (length (mParticles m)) <= g) chunks /\
    (forall (q : nat) m, chunks !! q = Some m -> Z.of_nat q + 1 < parts_of d1 ->
       Z.of_nat (length (mParticles m)) = g) /\
    (0 < n -> Forall (fun m => mParticles m <> []) chunks).
Proof.
  intros d d1.
  pose proof five_by_two_facts as Hfacts.
  split; [exact Hfacts|].
  destruct Hfacts as (Hneed & Hwork & Hjoins & Hgran & Hn & Hfuel).
  exact (served_chunk_sizes d d1 (fun _ => 1) 3
           Hneed Hwork Hjoins Hgran Hn Hfuel).
Defined.

(** X6 on the example. *)
Lemma served_chunk_infos_witness :
  let d := after_start (H := scripted [[10; 20; 30; 40; 50]%nat])
             (options "pythia8" 2 2 false) in
  let d1 := joined d in
  (mNeedNewEvent d = true /\
   mEventCounter d < mMaxEvents d /\
   joins d d1 /\
   1 <= mChunkGranularity d <= INT_MAX /\
   stack_size d1 <= INT_MAX /\
   (Z.to_nat (parts_of d1) <= 3)%nat) /\
  let id := to_int (mEventCounter d + 1) in
  exists chunks d',
    serveEvent 3 (fun _ => 1) d = Some (chunks, d') /\
    mSubEventInfo <$> chunks
    = (fun q => {| eventID := id;
                   maxEvents := mMaxEvents d;
                   part := q + 1;
                   nparts := Z.max 1 (ceil_div (stack_size d1) (mChunkGranularity d));
                   seed := to_int (id + mInitialSeed d);
                   index := 0;
                   mMCEventHeader := mEventHeader d1 |})
      <$> seqZ 0 (Z.max 1 (ceil_div (stack_size d1) (mChunkGranularity d))) /\
    mGeneratorThread d' = Some JobGenerateEvent /\
    mNeedNewEvent d' = true /\
    mEventCounter d' = id.
Proof.
  intros d d1.
  pose proof five_by_two_facts as Hfacts.
  split; [exact Hfacts|].
  destruct Hfacts as (Hneed & Hwork & Hjoins & Hgran & Hn & Hfuel).
  exact (served_chunk_infos d d1 (fun _ => 1) 3
           Hneed Hwork Hjoins Hgran Hn Hfuel).
Defined.

(** ** What a request leaves alone *)

Section Frame.
Context `{External}.

Lemma generateEvent_setup (d : Device) u o d1 :
  generateEvent d = Ok (u, o, d1) ->
  same_setup d d1 /\
  exists g, mStack d1 = (GenerateEvent g).1.1.
Proof.
  unfold generateEvent, same_setup. run_monad.
  destruct (mPrimGen d) as [p|]; [|discriminate].
  destruct (generators d !! p) as [g|]; [|discriminate].
  destruct (GenerateEvent g) as [[prims header] g'] eqn:Hg.
  run_monad. intros [= <- <- <-]. simpl.
  split; [done|]. exists g. by rewrite Hg.
Qed.

Lemma initGenerator_setup (d : Device) u o d1 :
  initGenerator d = Ok (u, o, d1) ->
  same_setup d d1 /\
  exists g, mStack d1 = (GenerateEvent g).1.1.
Proof.
  unfold initGenerator. run_monad.
  destruct (lookup_guard _); simpl;
    [destruct (mPrimGeneratorCache d !! _); simpl|];
    (match goal with
     | |- context [generateEvent ?d'] =>
         destruct (generateEvent d') as [[[u' o'] d'']|] eqn:Hgen; [|discriminate];
         apply generateEvent_setup in Hgen as [Hsame Hstack]
     end);
    intros [= <- <- <-]; (split; [|exact Hstack]);
    unfold same_setup in *; simpl in *; exact Hsame.
Qed.

Lemma join_setup (d : Device) u o d1 :
  join_if_joinable d = Ok (u, o, d1) ->
  same_setup d d1 /\
  (events_bounded -> stack_size d <= INT_MAX -> stack_size d1 <= INT_MAX).
Proof.
  unfold join_if_joinable. run_monad.
  destruct (mGeneratorThread d) as [job|] eqn:Hthr.
  - destruct (run_job job d) as [[[u' o'] d']|] eqn:Hjob; [|discriminate].
    intros [= <- <- <-].
    assert (same_setup d d' /\ exists g, mStack d' = (GenerateEvent g).1.1)
      as [Hsame [g Hstack]].
    { destruct job; simpl in Hjob;
        [eapply initGenerator_setup | eapply generateEvent_setup]; exact Hjob. }
    split; [exact Hsame|].
    intros Hbound _. unfold stack_size. simpl. rewrite Hstack. apply Hbound.
  - intros [= <- <- <-]. unfold same_setup. done.
Qed.

(** A request leaves the set-up alone. *)
Lemma HandleRequest_setup requeststring code (d : Device) more out d' :
  HandleRequest requeststring code d = Ok (more, out, d') ->
  same_setup d d' /\
  mEventCounter d'
  = if String.eqb requeststring "primrequest" && mNeedNewEvent d
    then to_int (mEventCounter d + 1) else mEventCounter d.
Proof.
  intros Hreq. unfold same_setup.
  destruct (String.eqb_spec requeststring "configrequest") as [->|Hconf].
  { rewrite HandleRequest_config in Hreq. by injection Hreq as <- <- <-. }
  destruct (String.eqb_spec requeststring "primrequest") as [->|Hprim].
  2:{ rewrite HandleRequest_unknown in Hreq by done. by injection Hreq as <- <- <-. }
  destruct (HandleRequest_device _ _ _ _ _ Hreq) as (d1 & Hd1 & Hd').
  cbv zeta in Hd'. subst d'. unfold after_part.
  destruct (mNeedNewEvent d).
  - destruct Hd1 as [o Hjoin].
    destruct (join_frame _ _ _ _ Hjoin) as (_ & _ & _ & _ & _ & _ & _ & _ & Hec).
    destruct (join_setup _ _ _ _ Hjoin) as [(? & ? & ? & ? & ? & ?) _].
    repeat case_if; simpl; rewrite Hec; done.
  - subst d1. repeat case_if; simpl; done.
Qed.

(** A "primrequest" leaves a new event due only after the last part of an
    event, with the generation of the next event pending. *)
Lemma HandleRequest_last_part (d : Device) code more out d' :
  HandleRequest "primrequest" code d = Ok (more, out, d') ->
  mNeedNewEvent d' = true ->
  mGeneratorThread d' = Some JobGenerateEvent /\
  more = (0 <? code).
Proof.
  intros Hreq Hneed'.
  destruct (HandleRequest_inv _ _ _ _ _ Hreq)
    as (d1' & ps & _ & _ & _ & _ & Hmore & Hsent).
  destruct (HandleRequest_device _ _ _ _ _ Hreq) as (d1 & Hd1 & Hd').
  cbv zeta in Hd', Hmore, Hsent.
  destruct (negb ((mMaxEvents d <=? mEventCounter d) && mNeedNewEvent d)) eqn:Hwa.
  - rewrite andb_true_r in Hmore. split; [|exact Hmore].
    subst d'. unfold after_part in *.
    destruct (mNeedNewEvent d) eqn:Hneed; case_if_in Hneed'; simpl in *;
      congruence.
  - subst d'. destruct (mNeedNewEvent d) eqn:Hneed; simpl in *; [discriminate|].
    rewrite andb_false_r in Hwa. discriminate.
Qed.

(** X7. No request changes the configuration, the chunk size, the event
    limit, the initial seed, the pipe handle or the service flag, and the
    event counter advances by one exactly for a "primrequest" which finds
    that a new event is due -- also when that request is answered with the
    end-of-work sentinel. *)
Theorem HandleRequest_frame requeststring code (d : Device) more out d' :
  HandleRequest requeststring code d = Ok (more, out, d') ->
  mSimConfig d' = mSimConfig d /\
  mChunkGranularity d' = mChunkGranularity d /\
  mMaxEvents d' = mMaxEvents d /\
  mInitialSeed d' = mInitialSeed d /\
  mPipeToDriver d' = mPipeToDriver d /\
  mAsService d' = mAsService d /\
  mEventCounter d'
  = if String.eqb requeststring "primrequest" && mNeedNewEvent d
    then to_int (mEventCounter d + 1) else mEventCounter d.
Proof.
  intros Hreq.
  destruct (HandleRequest_setup _ _ _ _ _ _ Hreq) as [Hsame Hcounter].
  unfold same_setup in Hsame. tauto.
Qed.

End Frame.

(** X7 on the first request after the start. *)
Lemma HandleRequest_frame_witness :
  let d := after_start (H := scripted [[1; 2; 3]]%nat) (options "pythia8" 2 2 false) in
  exists more out d',
    HandleRequest "primrequest" 1 d = Ok (more, out, d') /\
    mSimConfig d' = mSimConfig d /\
    mChunkGranularity d' = mChunkGranularity d /\
    mMaxEvents d' = mMaxEvents d /\
    mInitialSeed d' = mInitialSeed d /\
    mPipeToDriver d' = mPipeToDriver d /\
    mAsService d' = mAsService d /\
    mEventCounter d'
    = if String.eqb "primrequest" "primrequest" && mNeedNewEvent d
      then to_int (mEventCounter d + 1) else mEventCounter d.
Proof.
  intros d.
  destruct (HandleRequest "primrequest" 1 d) as [[[more out] d']|] eqn:Hreq;
    [|discriminate Hreq].
  exists more, out, d'. split; [reflexivity|].
  exact (HandleRequest_frame "primrequest" 1 d more out d' Hreq).
Defined.

(** ** What a request sends *)

Section Outputs.
Context `{External}.

(** X8. A "primrequest" which returns has sent exactly one reply, last,
    and has written to the pipe at most once, before the reply: the event
    number of the chunk, exactly when a pipe handle is set, the chunk is
    part 1 and work was available. *)
Theorem HandleRequest_output (d : Device) code more out d' :
  HandleRequest "primrequest" code d = Ok (more, out, d') ->
  let workavailable :=
    negb ((mMaxEvents d <=? mEventCounter d) && mNeedNewEvent d) in
  exists m,
    out = (if negb (mPipeToDriver d =? -1) && (part (mSubEventInfo m) =? 1)
              && workavailable
           then [PipeWrite (eventID (mSubEventInfo m))] else [])
          ++ [Sent (ChunkReply m)] /\
    eventID (mSubEventInfo m) = (if workavailable then mEventCounter d' else -1).
Proof.
  intros Hreq.
  unfold HandleRequest in Hreq. simpl in Hreq. run_monad.
  destruct (mNeedNewEvent d) eqn:Hneed; simpl in Hreq.
  - destruct (join_if_joinable d) as [[[[] o] d1]|] eqn:Hjoin; [|discriminate].
    destruct (join_frame _ _ _ _ Hjoin)
      as (-> & _ & _ & _ & _ & _ & _ & Hpipe & _).
    simpl in Hreq. rewrite Hpipe in Hreq.
    destruct (mMaxEvents d <=? mEventCounter d) eqn:Hle; simpl in *.
    + destruct (0 <? code); injection Hreq as <- <- <-;
        eexists; rewrite andb_false_r; simpl; (split; reflexivity).
    + destruct (copy_range _ _ _) as [ps|] eqn:Hcopy; [|discriminate].
      simpl in Hreq.
      exists {| mSubEventInfo := chunk_info true (start_event d1); mParticles := ps |}.
      unfold chunk_info, start_event, parts_of, stack_size. simpl.
      repeat case_if_in Hreq;
        unfold launch in Hreq; run_monad;
        try (destruct (mGeneratorThread d1); [discriminate|]; simpl in Hreq);
        injection Hreq as <- <- <-;
        repeat match goal with Heq : _ = _ |- _ => rewrite Heq end;
        (split; reflexivity).
  - rewrite andb_false_r in *. simpl in *.
    destruct (copy_range _ _ _) as [ps|] eqn:Hcopy; [|discriminate].
    simpl in Hreq.
    exists {| mSubEventInfo := chunk_info true d; mParticles := ps |}.
    unfold chunk_info, parts_of, stack_size. simpl.
    repeat case_if_in Hreq;
      unfold launch in Hreq; run_monad;
      try (destruct (mGeneratorThread d); [discriminate|]; simpl in Hreq);
      injection Hreq as <- <- <-;
      repeat match goal with Heq : _ = _ |- _ => rewrite Heq end;
      (split; reflexivity).
Qed.

End Outputs.

(** X8 on the first request after the start. *)
Lemma HandleRequest_output_witness :
  let d := after_start (H := scripted [[1; 2; 3]]%nat) (options "pythia8" 2 2 false) in
  exists more out d',
    HandleRequest "primrequest" 1 d = Ok (more, out, d') /\
    let workavailable :=
      negb ((mMaxEvents d <=? mEventCounter d) && mNeedNewEvent d) in
    exists m,
      out = (if negb (mPipeToDriver d =? -1) && (part (mSubEventInfo m) =? 1)
                && workavailable
             then [PipeWrite (eventID (mSubEventInfo m))] else [])
            ++ [Sent (ChunkReply m)] /\
      eventID (mSubEventInfo m) = (if workavailable then mEventCounter d' else -1).
Proof.
  intros d.
  destruct (HandleRequest "primrequest" 1 d) as [[[more out] d']|] eqn:Hreq;
    [|discriminate Hreq].
  exists more, out, d'. split; [reflexivity|].
  exact (HandleRequest_output d 1 more out d' Hreq).
Defined.

(** ** Requests never fault *)

Section Safety.
Context `{External}.

Lemma parts_of_pos (d : Device) : 1 <= parts_of d.
Proof. unfold parts_of, numberofparts. lia. Qed.

Lemma parts_of_int (d : Device) : parts_of d <= INT_MAX.
Proof.
  unfold parts_of, numberofparts.
  pose proof (to_int_range (ceil_div (stack_size d) (mChunkGranularity d))).
  unfold int_range, INT_MAX in *. lia.
Qed.

(** The device which a request for a part leaves is serving. *)
Lemma after_part_serving (d : Device) :
  wf_device (after_part d) ->
  mNeedNewEvent d = false ->
  mGeneratorThread d = None ->
  stack_size d <= INT_MAX ->
  1 <= mChunkGranularity d <= INT_MAX ->
  0 <= mPartCounter d < parts_of d ->
  serving_inv (after_part d).
Proof.
  intros Hwf Hneed Hthr Hn Hg Hp.
  pose proof (parts_of_int d) as HN.
  split; [exact Hwf|]. clear Hwf.
  unfold after_part.
  rewrite to_int_id by (unfold int_range, INT_MIN, INT_MAX in *; lia).
  destruct (Z.eqb_spec (mPartCounter d + 1) (parts_of d)) as [Hlast|Hmore];
    unfold parts_of, stack_size in *; simpl;
    (split; [exact Hg|]); (split; [exact Hn|]).
  - discriminate.
  - intros _. split; [exact Hthr|]. lia.
Qed.

Lemma serving_joins (d : Device) :
  events_bounded ->
  serving_inv d ->
  mNeedNewEvent d = true ->
  exists d1, joins d d1 /\ stack_size d1 <= INT_MAX /\
    mChunkGranularity d1 = mChunkGranularity d /\
    mGeneratorThread d1 = None.
Proof.
  intros Hbound (Hwf & Hg & Hn & _) Hneed.
  destruct (wf_joins d Hwf) as (d1 & [o Hjoin] & _).
  exists d1. split; [by exists o|].
  destruct (join_frame _ _ _ _ Hjoin) as (_ & Hthr & Hg1 & _).
  destruct (join_setup _ _ _ _ Hjoin) as [_ Hstack].
  split; [by apply Hstack|]. done.
Qed.

(** In a serving device every request returns and leaves the device
    serving. *)
Lemma HandleRequest_serving requeststring code (d : Device) :
  events_bounded ->
  serving_inv d ->
  exists more out d',
    HandleRequest requeststring code d = Ok (more, out, d') /\
    serving_inv d'.
Proof.
  intros Hbound Hinv.
  destruct (String.eqb_spec requeststring "configrequest") as [->|Hconf].
  { rewrite HandleRequest_config. by eexists _, _, _. }
  destruct (String.eqb_spec requeststring "primrequest") as [->|Hprim].
  2:{ rewrite HandleRequest_unknown by done. by eexists _, _, _. }
  assert (Hwf' : forall more out d',
            HandleRequest "primrequest" code d = Ok (more, out, d') -> wf_device d')
    by (intros more out d'; apply HandleRequest_wf, Hinv).
  destruct (mNeedNewEvent d) eqn:Hneed.
  - destruct (serving_joins d Hbound Hinv Hneed)
      as (d1 & [o Hjoin] & Hn1 & Hg1 & Hthr1).
    destruct Hinv as (Hwf & Hg & Hn & _).
    destruct (Z.le_gt_cases (mMaxEvents d) (mEventCounter d)) as [Hdone|Hwork].
    + pose proof (HandleRequest_sentinel d code o d1 Hneed Hdone Hjoin) as Hreq.
      rewrite Hreq. eexists _, _, _. split; [reflexivity|].
      split; [exact (Hwf' _ _ _ Hreq)|].
      unfold start_event, parts_of, stack_size in *. simpl.
      rewrite Hg1. split; [exact Hg|]. split; [exact Hn1|].
      intros _. split; [exact Hthr1|].
      pose proof (parts_of_pos d1) as Hpos.
      unfold parts_of, stack_size in Hpos. rewrite Hg1 in Hpos. lia.
    + pose proof (HandleRequest_new_event d code o d1 Hneed Hwork Hjoin) as Hreq.
      assert (Hpart : 0 <= mPartCounter (start_event d1) < parts_of (start_event d1)).
      { pose proof (parts_of_pos (start_event d1)). simpl. lia. }
      assert (Hg2 : 1 <= mChunkGranularity (start_event d1) <= INT_MAX)
        by (simpl; rewrite Hg1; exact Hg).
      assert (Hn2 : stack_size (start_event d1) <= INT_MAX) by exact Hn1.
      assert (Hthr2 : mGeneratorThread (start_event d1) = None) by exact Hthr1.
      assert (Hneed2 : mNeedNewEvent (start_event d1) = false) by reflexivity.
      rewrite (HandleRequest_serves_part _ code Hneed2 Hthr2 Hn2 Hg2 Hpart) in Hreq.
      rewrite Hreq. eexists _, _, _. split; [reflexivity|].
      apply after_part_serving; try done.
      exact (Hwf' _ _ _ Hreq).
  - destruct Hinv as (Hwf & Hg & Hn & Hserving).
    destruct (Hserving Hneed) as [Hthr Hpart].
    pose proof (HandleRequest_serves_part d code Hneed Hthr Hn Hg Hpart) as Hreq.
    rewrite Hreq. eexists _, _, _. split; [reflexivity|].
    apply after_part_serving; try done.
    exact (Hwf' _ _ _ Hreq).
Qed.

(** X9. In a serving device ([serving_inv]: positive chunk size, events of
    at most [INT_MAX] primaries, no generation pending while an event is
    being served) every request returns: the generator thread is never
    assigned while joinable, no null generator is used and the copy loop
    reads inside the event.  The device stays serving. *)
Theorem HandleRequest_keeps_serving requeststring code (d : Device) :
  events_bounded ->
  serving_inv d ->
  exists more out d',
    HandleRequest requeststring code d = Ok (more, out, d') /\
    serving_inv d'.
Proof. apply HandleRequest_serving. Qed.

(** The device after [InitTask] is serving. *)
Lemma started_serving (vm : Options) :
  1 <= to_int (opt_chunkSize vm) ->
  exists out d, started vm = Ok (tt, out, d) /\ serving_inv d /\
    mNeedNewEvent d = true /\ mEventCounter d = 0 /\
    mAsService d = opt_asservice vm.
Proof.
  intros Hchunk.
  assert (Hok : exists out d, started vm = Ok (tt, out, d) /\
            mChunkGranularity d = to_int (opt_chunkSize vm) /\
            mStack d = [] /\ mNeedNewEvent d = true /\ mEventCounter d = 0 /\
            mAsService d = opt_asservice vm).
  { unfold started, InitTask, launch. run_monad.
    destruct (opt_pipe vm); by eexists _, _. }
  destruct Hok as (out & d & Hstart & Hg & Hstack & Hneed & Hec & Hservice).
  exists out, d. split; [exact Hstart|].
  split; [|done].
  split; [exact (started_wf _ _ _ Hstart)|].
  pose proof (to_int_range (opt_chunkSize vm)) as Hrange.
  unfold stack_size. rewrite Hg, Hstack, Hneed. simpl.
  unfold int_range, INT_MAX in *. repeat split; try lia; discriminate.
Qed.

End Safety.

(** Generators which make one event again and again make bounded events. *)
Lemma constant_events_bounded (ev : list nat) :
  Z.of_nat (length ev) <= INT_MAX -> events_bounded (H := constant_events ev).
Proof. intros Hev g. exact Hev. Qed.

(** X9 on the started device, with generators which make events of three
    primaries. *)
Lemma HandleRequest_keeps_serving_witness :
  let d := after_start (H := constant_events [1; 2; 3]%nat)
             (options "pythia8" 2 2 false) in
  (events_bounded (H := constant_events [1; 2; 3]%nat) /\ serving_inv d) /\
  exists more out d',
    HandleRequest "primrequest" 1 d = Ok (more, out, d') /\
    serving_inv d'.
Proof.
  intros d.
  assert (Hbound : events_bounded (H := constant_events [1; 2; 3]%nat))
    by (apply constant_events_bounded; unfold INT_MAX; simpl; lia).
  assert (Hinv : serving_inv d).
  { destruct (started_serving (H := constant_events [1; 2; 3]%nat)
                (options "pythia8" 2 2 false))
      as (out & d0 & Hstart & Hinv & _); [vm_compute; discriminate|].
    unfold d, after_start. rewrite Hstart. exact Hinv. }
  split; [by split|].
  exact (HandleRequest_keeps_serving "primrequest" 1 d Hbound Hinv).
Defined.

(** ** The run loop of the server *)

Section RunLoop.
Context `{External}.

Lemma serving_set_mState s (d : Device) : serving_inv d -> serving_inv (set_mState s d).
Proof. intros Hinv. exact Hinv. Qed.

(** What [ConditionalRun] does after a request has been handled. *)
Lemma ConditionalRun_request requeststring code control (d : Device) more1 out1 d1 :
  HandleRequest requeststring code d = Ok (more1, out1, d1) ->
  ConditionalRun (Some requeststring) code control d
  = if more1 then Ok (true, out1, set_mState ReadyToServe d1)
    else if mAsService d1 then
      match control with
      | Some reconfig =>
          if stop reconfig
          then Ok (false, out1 ++ [Published "PRIMSERVER STATUS AWAITING INPUT"],
                   set_mState Stopped (set_mState Idle d1))
          else
            match ReInit reconfig (set_mState Idle d1) with
            | Ok (_, _, d2) =>
                Ok (true, out1 ++ [Published "PRIMSERVER STATUS AWAITING INPUT"],
                    set_mState ReadyToServe d2)
            | Fault f => Fault f
            end
      | None => Ok (false, out1 ++ [Published "PRIMSERVER STATUS AWAITING INPUT"],
                    set_mState Stopped (set_mState Idle d1))
      end
    else Ok (false, out1, set_mState Stopped (set_mState Idle d1)).
Proof.
  intros Hreq. unfold ConditionalRun. run_monad. rewrite Hreq.
  destruct more1; simpl; [by rewrite ?app_nil_r|].
  destruct (mAsService d1); simpl; [|by rewrite ?app_nil_r].
  unfold waitForControlInput. run_monad.
  destruct control as [reconfig|]; simpl; [|by rewrite ?app_nil_r].
  unfold ReInit. destruct (stop reconfig); simpl; [by rewrite ?app_nil_r|].
  unfold launch. run_monad.
  destruct (mGeneratorThread d1); simpl; [reflexivity|].
  by rewrite ?app_nil_r.
Qed.

(** X10. [ConditionalRun] on a serving device ends in [std::terminate]
    exactly when, in service mode, the send of the last part of an event
    fails and the control channel delivers a reconfiguration which does not
    stop the server: [ReInit] then assigns to the generator thread which
    [HandleRequest] has just started.  In every other case it returns and
    the device stays serving. *)
Theorem ConditionalRun_fault_iff request code control (d : Device) :
  events_bounded ->
  serving_inv d ->
  let failed_last_part :=
    request = Some "primrequest" /\ code <= 0 /\ mAsService d = true /\
    (exists reconfig, control = Some reconfig /\ stop reconfig = false) /\
    (exists more out d',
       HandleRequest "primrequest" code d = Ok (more, out, d') /\
       mNeedNewEvent d' = true) in
  (failed_last_part ->
   ConditionalRun request code control d = Fault Terminate) /\
  (~ failed_last_part ->
   exists more out d',
     ConditionalRun request code control d = Ok (more, out, d') /\
     serving_inv d').
Proof.
  intros Hbound Hinv failed_last_part. subst failed_last_part. split.
  - intros (-> & Hcode & Hservice & (reconfig & -> & Hstop) &
            (more & out & d' & Hreq & Hneed')).
    destruct (HandleRequest_last_part _ _ _ _ _ Hreq Hneed') as [Hthr ->].
    destruct (HandleRequest_setup _ _ _ _ _ _ Hreq) as [(_ & _ & _ & _ & _ & Hs) _].
    rewrite (ConditionalRun_request _ _ _ _ _ _ _ Hreq).
    destruct (Z.ltb_spec 0 code) as [|_]; [lia|].
    rewrite Hs, Hservice, Hstop.
    unfold ReInit, launch. rewrite Hstop. run_monad. by rewrite Hthr.
  - intros Hnot.
    destruct request as [requeststring|]; [|by eexists _, _, _].
    destruct (HandleRequest_serving requeststring code d Hbound Hinv)
      as (more1 & out1 & d1 & Hreq & Hinv1).
    rewrite (ConditionalRun_request _ _ _ _ _ _ _ Hreq).
    destruct more1; [by eexists _, _, _|].
    destruct (mAsService d1) eqn:Hservice1; [|by eexists _, _, _].
    destruct control as [reconfig|]; [|by eexists _, _, _].
    destruct (stop reconfig) eqn:Hstop; [by eexists _, _, _|].
    destruct (mGeneratorThread d1) as [job|] eqn:Hthr.
    + exfalso. apply Hnot.
      destruct (HandleRequest_setup _ _ _ _ _ _ Hreq) as [(_ & _ & _ & _ & _ & Hs) _].
      assert (requeststring = "primrequest") as ->.
      { destruct (String.eqb_spec requeststring "configrequest") as [->|Hconf];
          [rewrite HandleRequest_config in Hreq; discriminate|].
        destruct (String.eqb_spec requeststring "primrequest") as [->|Hprim];
          [reflexivity|].
        rewrite HandleRequest_unknown in Hreq by done. discriminate. }
      assert (Hneed1 : mNeedNewEvent d1 = true).
      { destruct Hinv1 as (_ & _ & _ & Hserving).
        destruct (mNeedNewEvent d1); [reflexivity|].
        destruct (Hserving eq_refl) as [Hnone _]. congruence. }
      destruct (HandleRequest_last_part _ _ _ _ _ Hreq Hneed1) as [_ Hmore].
      split; [reflexivity|]. split; [symmetry in Hmore; apply Z.ltb_ge in Hmore; lia|].
      split; [congruence|]. split; [by exists reconfig|].
      by exists false, out1, d1.
    + destruct (ReInit_resets reconfig (set_mState Idle d1) Hstop Hthr)
        as (d2 & Hre & _ & _ & Hneed2 & _).
      rewrite Hre. eexists _, _, _. split; [reflexivity|].
      apply serving_set_mState.
      pose proof (ReInit_wf _ _ _ _ _ (proj1 (serving_set_mState Idle d1 Hinv1)) Hre) as Hwf2.
      split; [exact Hwf2|].
      revert Hre. unfold ReInit, launch. rewrite Hstop. run_monad. rewrite Hthr.
      simpl. intros [= <-]. destruct Hinv1 as (_ & Hg & Hn & _).
      unfold stack_size in *. simpl. repeat split; try lia; discriminate.
Qed.

(** X11. When [ConditionalRun] returns, it tells the framework to go on
    exactly when the request was not a "primrequest" (none received, a
    "configrequest" or an unknown request), or the chunk was sent and work
    was available, or the server runs as a service and the control channel
    delivered a reconfiguration which does not stop it.  So a failed send
    of a chunk stops a server which is not a service. *)
Theorem ConditionalRun_returns request code control (d : Device) more out d' :
  ConditionalRun request code control d = Ok (more, out, d') ->
  more = true <->
  request <> Some "primrequest" \/
  (0 < code /\ ~ (mMaxEvents d <= mEventCounter d /\ mNeedNewEvent d = true)) \/
  (mAsService d = true /\
   exists reconfig, control = Some reconfig /\ stop reconfig = false).
Proof.
  intros Hrun.
  destruct request as [requeststring|];
    [|injection Hrun as <- <- <-; split; [by left|done]].
  destruct (HandleRequest requeststring code d) as [[[more1 out1] d1]|] eqn:Hreq.
  2:{ unfold ConditionalRun in Hrun. run_monad. rewrite Hreq in Hrun. discriminate. }
  rewrite (ConditionalRun_request _ _ _ _ _ _ _ Hreq) in Hrun.
  destruct (HandleRequest_setup _ _ _ _ _ _ Hreq) as [(_ & _ & _ & _ & _ & Hs) _].
  destruct (String.eqb_spec requeststring "configrequest") as [->|Hconf].
  { rewrite HandleRequest_config in Hreq. injection Hreq as <- <- <-.
    injection Hrun as <- <- <-. split; [by left|done]. }
  destruct (String.eqb_spec requeststring "primrequest") as [->|Hprim].
  2:{ rewrite HandleRequest_unknown in Hreq by done. injection Hreq as <- <- <-.
      injection Hrun as <- <- <-. split; [left; congruence|done]. }
  destruct (HandleRequest_inv _ _ _ _ _ Hreq)
    as (_ & _ & _ & _ & _ & _ & Hmore & _).
  cbv zeta in Hmore.
  assert (Hmore1 : more1 = true <->
            0 < code /\ ~ (mMaxEvents d <= mEventCounter d /\ mNeedNewEvent d = true)).
  { rewrite Hmore, andb_true_iff, negb_true_iff, andb_false_iff,
      Z.ltb_lt, Z.leb_gt.
    split.
    - intros [Hcode Hwa]. split; [exact Hcode|].
      intros [Hle Hneed]. destruct Hwa as [Hlt|Hno]; [lia|congruence].
    - intros [Hcode Hwa]. split; [exact Hcode|].
      destruct (mNeedNewEvent d); [|by right].
      destruct (Z.le_gt_cases (mMaxEvents d) (mEventCounter d)); [|by left].
      exfalso. by apply Hwa. }
  rewrite <- Hs.
  destruct more1.
  - injection Hrun as <- <- <-. split; [intros _; right; left; by apply Hmore1|done].
  - assert (Hno : ~ (0 < code /\
              ~ (mMaxEvents d <= mEventCounter d /\ mNeedNewEvent d = true)))
      by (intros Hyes; apply Hmore1 in Hyes; discriminate).
    destruct (mAsService d1).
    + destruct control as [reconfig|].
      * destruct (stop reconfig) eqn:Hstop.
        -- injection Hrun as <- <- <-. split; [done|].
           intros [?|[?|[_ (r & [= <-] & ?)]]]; [done|done|congruence].
        -- destruct (ReInit reconfig _) as [[[? ?] ?]|]; [|discriminate].
           injection Hrun as <- <- <-. split; [|done].
           intros _. right. right. split; [done|]. by exists reconfig.
      * injection Hrun as <- <- <-. split; [done|].
        intros [?|[?|[_ (r & ? & _)]]]; done.
    + injection Hrun as <- <- <-. split; [done|].
      intros [?|[?|[? _]]]; done.
Qed.

End RunLoop.

(** X10 on a started service whose first reply, the only part of the first
    event, cannot be sent. *)
Lemma ConditionalRun_fault_iff_witness :
  let d := after_start (H := constant_events [1; 2; 3]%nat)
             (options "pythia8" 2 500 true) in
  let control := Some (reconfiguration "pythia8" "" 2) in
  (events_bounded (H := constant_events [1; 2; 3]%nat) /\ serving_inv d) /\
  let failed_last_part :=
    Some "primrequest" = Some "primrequest" /\ -2 <= 0 /\ mAsService d = true /\
    (exists reconfig, control = Some reconfig /\ stop reconfig = false) /\
    (exists more out d',
       HandleRequest "primrequest" (-2) d = Ok (more, out, d') /\
       mNeedNewEvent d' = true) in
  (failed_last_part ->
   ConditionalRun (Some "primrequest") (-2) control d = Fault Terminate) /\
  (~ failed_last_part ->
   exists more out d',
     ConditionalRun (Some "primrequest") (-2) control d = Ok (more, out, d') /\
     serving_inv d').
Proof.
  intros d control.
  assert (Hbound : events_bounded (H := constant_events [1; 2; 3]%nat))
    by (apply constant_events_bounded; unfold INT_MAX; simpl; lia).
  assert (Hinv : serving_inv d).
  { destruct (started_serving (H := constant_events [1; 2; 3]%nat)
                (options "pythia8" 2 500 true))
      as (out & d0 & Hstart & Hinv & _); [vm_compute; discriminate|].
    unfold d, after_start. rewrite Hstart. exact Hinv. }
  split; [by split|].
  exact (ConditionalRun_fault_iff (Some "primrequest") (-2) control d Hbound Hinv).
Defined.

(** X11 on a first request whose reply cannot be sent. *)
Lemma ConditionalRun_returns_witness :
  let d := after_start (H := scripted [[1; 2; 3]]%nat) (options "pythia8" 2 2 false) in
  exists more out d',
    ConditionalRun (Some "primrequest") (-1) None d = Ok (more, out, d') /\
    (more = true <->
     Some "primrequest" <> Some "primrequest" \/
     (0 < -1 /\ ~ (mMaxEvents d <= mEventCounter d /\ mNeedNewEvent d = true)) \/
     (mAsService d = true /\
      exists reconfig, None = Some reconfig /\ stop reconfig = false)).
Proof.
  intros d.
  destruct (ConditionalRun (Some "primrequest") (-1) None d)
    as [[[more out] d']|] eqn:Hrun; [|discriminate Hrun].
  exists more, out, d'. split; [reflexivity|].
  exact (ConditionalRun_returns (Some "primrequest") (-1) None d more out d' Hrun).
Defined.

(** ** Reconfiguration and the configuration served *)

Section Reconfigured.
Context `{External}.

(** X12. After a reconfiguration a "configrequest" is answered with the
    new generator, trigger and kinematics file, but with the embedding file
    and the number of events of the old configuration, although the server
    itself counts up to the new number of events, converted to [int]. *)
Theorem reconfigured_config_reply reconfig code (d : Device) :
  stop reconfig = false ->
  mGeneratorThread d = None ->
  exists d',
    ReInit reconfig d = Ok (true, [], d') /\
    HandleRequest "configrequest" code d'
    = Ok (true,
          [Sent (ConfigReply
                   {| mGenerator := generator reconfig;
                      mTrigger := trigger reconfig;
                      mExtKinFileName := extKinfileName reconfig;
                      mEmbedIntoFileName := mEmbedIntoFileName (mSimConfig d);
                      mNEvents := mNEvents (mSimConfig d) |})],
          d') /\
    mMaxEvents d' = to_int (nEvents reconfig).
Proof.
  intros Hstop Hthr.
  unfold ReInit, launch. rewrite Hstop. run_monad. rewrite Hthr. simpl.
  eexists. split; [reflexivity|].
  rewrite HandleRequest_config. split; reflexivity.
Qed.

End Reconfigured.

(** X12 on a service which has served its only event and has answered the
    next request with the end-of-work sentinel; the reconfiguration asks
    for 2^32 - 1 events. *)
Lemma reconfigured_config_reply_witness :
  let d := device_of (and_then (H := scripted [[1]; [2]; [3]]%nat)
                        (and_then (started (options "extkin" 1 500 true))
                           (HandleRequest "primrequest" 1))
                        (HandleRequest "primrequest" 1))
             (O2PrimaryServerDevice (config "extkin" 1)) in
  let reconfig := reconfiguration "pythia8" "kine.root" 4294967295 in
  (stop reconfig = false /\ mGeneratorThread d = None) /\
  exists d',
    ReInit reconfig d = Ok (true, [], d') /\
    HandleRequest "configrequest" 1 d'
    = Ok (true,
          [Sent (ConfigReply
                   {| mGenerator := "pythia8"; mTrigger := "";
                      mExtKinFileName := "kine.root";
                      mEmbedIntoFileName := ""; mNEvents := 1 |})],
          d') /\
    mMaxEvents d' = -1.
Proof.
  intros d reconfig.
  assert (Hstop : stop reconfig = false) by reflexivity.
  assert (Hthr : mGeneratorThread d = None) by (vm_compute; reflexivity).
  split; [by split|].
  exact (reconfigured_config_reply reconfig 1 d Hstop Hthr).
Defined.

(** ** The first request *)

Section FirstRequest.
Context `{External}.



End FirstRequest.


(** ** The worker's kernel: receives which deliver nothing *)

Section KernelEdges.
Context `{External}.
Variable state_code : O2PrimaryServerState -> Z.

Lemma receive_loop_agree mcEngine Receive Receive' (fuel : nat) : forall trial : nat,
  (forall k, (k <= 2)%nat -> Receive k = Receive' k) ->
  (trial <= 2)%nat ->
  receive_loop fuel mcEngine Receive trial
  = receive_loop fuel mcEngine Receive' trial.
Proof.
  induction fuel as [|fuel IH]; intros trial Hagree Htrial; [reflexivity|].
  simpl. rewrite <- (Hagree trial Htrial).
  destruct (Receive trial) as [code chunk].
  destruct (Z.leb_spec (Z.of_nat (S trial)) 2) as [Hle|Hgt].
  - rewrite (IH (S trial)) by (try done; lia). reflexivity.
  - rewrite !andb_false_r. reflexivity.
Qed.

(** X14. The kernel makes at most three receives: its result is the same
    for any two ways in which the channel answers the first three receives
    alike, and letting the loop run longer changes nothing. *)
Theorem Kernel_three_receives statuschannel sendcode Receive Receive' mcEngine :
  (forall k, (k <= 2)%nat -> Receive k = Receive' k) ->
  Kernel state_code statuschannel sendcode Receive mcEngine
  = Kernel state_code statuschannel sendcode Receive' mcEngine /\
  forall fuel, (3 <= fuel)%nat ->
    receive_loop fuel mcEngine Receive 0 = receive_loop 3 mcEngine Receive' 0.
Proof.
  intros Hagree. split.
  - unfold Kernel.
    rewrite (receive_loop_agree mcEngine Receive Receive' 3 0 Hagree) by lia.
    reflexivity.
  - intros fuel Hfuel.
    rewrite (receive_loop_fuel mcEngine Receive fuel 0) by lia.
    apply receive_loop_agree; [exact Hagree|lia].
Qed.

(** When the loop gives up. *)
Lemma receive_loop_false mcEngine Receive (fuel : nat) : forall trial : nat,
  (fuel + trial = 3)%nat ->
  (receive_loop fuel mcEngine Receive trial).1 = false <->
  exists k, (trial <= k <= 2)%nat /\
    (forall j, (trial <= j < k)%nat -> (Receive j).1 = -1) /\
    0 < (Receive k).1 /\ is_sentinel (Receive k).2 = true.
Proof.
  induction fuel as [|fuel IH]; intros trial Hfuel.
  { simpl. split; [discriminate|]. intros (k & Hk & _). lia. }
  simpl. destruct (Receive trial) as [code chunk] eqn:Hrecv.
  assert (Hhere : forall k, (trial <= k <= 2)%nat ->
            (forall j, (trial <= j < k)%nat -> (Receive j).1 = -1) ->
            0 < (Receive k).1 -> 0 < code -> k = trial).
  { intros k Hk Hfail Hpos Hcode.
    destruct (decide (k = trial)) as [|Hne]; [done|].
    specialize (Hfail trial ltac:(lia)). rewrite Hrecv in Hfail. simpl in Hfail. lia. }
  destruct (Z.ltb_spec 0 code) as [Hcode|Hcode].
  - destruct (is_sentinel chunk) eqn:Hsent.
    + split; [|done]. intros _. exists trial. rewrite Hrecv. simpl.
      split; [lia|]. split; [intros j; lia|]. done.
    + destruct (Z.eqb_spec code (-1)) as [|_]; [lia|]. simpl.
      split; [discriminate|].
      intros (k & Hk & Hfail & Hpos & Hsentk).
      rewrite (Hhere k Hk Hfail Hpos Hcode), Hrecv in Hsentk. simpl in Hsentk.
      congruence.
  - destruct (Z.eqb_spec code (-1)) as [Hminus|Hother]; simpl.
    + destruct (Z.leb_spec (Z.of_nat (S trial)) 2) as [Hle|Hgt].
      * rewrite (IH (S trial)) by lia. split.
        -- intros (k & Hk & Hfail & Hrest). exists k.
           split; [lia|]. split; [|exact Hrest].
           intros j Hj. destruct (decide (j = trial)) as [->|Hne];
             [by rewrite Hrecv|apply Hfail; lia].
        -- intros (k & Hk & Hfail & Hpos & Hsentk). exists k.
           assert (k <> trial) by (intros ->; rewrite Hrecv in Hpos; simpl in Hpos; lia).
           split; [lia|]. split; [|done]. intros j Hj. apply Hfail. lia.
      * split; [discriminate|].
        intros (k & Hk & Hfail & Hpos & Hsentk).
        assert (k = trial) as -> by lia. rewrite Hrecv in Hpos. simpl in Hpos. lia.
    + split; [discriminate|].
      intros (k & Hk & Hfail & Hpos & Hsentk).
      destruct (decide (k = trial)) as [->|Hne].
      * rewrite Hrecv in Hpos. simpl in Hpos. lia.
      * specialize (Hfail trial ltac:(lia)). rewrite Hrecv in Hfail. simpl in Hfail. lia.
Qed.

(** X15. The kernel returns false, which ends the worker's run loop, in
    three cases only: a status channel is given and the poll finds no
    work, the request could not be sent, or a receive -- the first, or one
    after receives which all returned -1, the third at the latest --
    delivered the end-of-work sentinel. *)
Theorem Kernel_returns_false_iff statuschannel sendcode Receive mcEngine :
  (Kernel state_code statuschannel sendcode Receive mcEngine).1 = false <->
  (exists poll, statuschannel = Some poll /\
     isWorkAvailable state_code (poll_sendcode poll) (poll_code poll)
       (poll_state poll) = false) \/
  sendcode <= 0 \/
  (exists k, (k <= 2)%nat /\
     (forall j, (j < k)%nat -> (Receive j).1 = -1) /\
     0 < (Receive k).1 /\
     mParticles (Receive k).2 = [] /\
     eventID (mSubEventInfo (Receive k).2) = -1).
Proof.
  assert (Hloop : (receive_loop 3 mcEngine Receive 0).1 = false <->
            exists k, (k <= 2)%nat /\
              (forall j, (j < k)%nat -> (Receive j).1 = -1) /\
              0 < (Receive k).1 /\
              mParticles (Receive k).2 = [] /\
              eventID (mSubEventInfo (Receive k).2) = -1).
  { rewrite (receive_loop_false mcEngine Receive 3 0) by lia.
    split; intros (k & Hk & Hfail & Hpos & Hsent); exists k.
    - apply is_sentinel_spec in Hsent.
      split; [lia|]. split; [intros j Hj; apply Hfail; lia|]. done.
    - split; [lia|]. split; [intros j Hj; apply Hfail; lia|].
      split; [exact Hpos|]. by apply is_sentinel_spec. }
  unfold Kernel.
  destruct (receive_loop 3 mcEngine Receive 0) as [more calls]. simpl in Hloop.
  destruct statuschannel as [poll|]; simpl.
  - destruct (isWorkAvailable _ _ _ _) eqn:Havailable; simpl.
    + destruct (Z.ltb_spec 0 sendcode) as [Hsend|Hsend]; simpl.
      * split; [intros Hmore; right; right; by apply Hloop|].
        intros [(poll' & [= <-] & Hno)|[?|?]]; [congruence|lia|by apply Hloop].
      * split; [by right; left|done].
    + split; [|done]. intros _. left. by exists poll.
  - destruct (Z.ltb_spec 0 sendcode) as [Hsend|Hsend]; simpl.
    + split; [intros Hmore; right; right; by apply Hloop|].
      intros [(poll' & ? & _)|[?|?]]; [done|lia|by apply Hloop].
    + split; [by right; left|done].
Qed.

(** After [k <= 2] receives which return -1, a receive which fails and is
    not tried again ends the loop. *)
Lemma receive_loop_no_answer mcEngine Receive (k : nat) : forall (fuel trial : nat),
  (k < fuel)%nat -> (trial + k <= 2)%nat ->
  (forall j, (j < k)%nat -> (Receive (trial + j)%nat).1 = -1) ->
  (Receive (trial + k)%nat).1 <= 0 ->
  (Receive (trial + k)%nat).1 <> -1 \/ (trial + k = 2)%nat ->
  receive_loop fuel mcEngine Receive trial = (true, []).
Proof.
  induction k as [|k IH]; intros fuel trial Hfuel Htrial Hfail Hcode Hlast;
    (destruct fuel as [|fuel]; [lia|]); simpl.
  - rewrite Nat.add_0_r in Hcode, Hlast.
    destruct (Receive trial) as [code chunk]. simpl in *.
    destruct (Z.ltb_spec 0 code); [lia|].
    destruct (Z.eqb_spec code (-1)); simpl; [|reflexivity].
    destruct Hlast as [|Hlast]; [done|].
    destruct (Z.leb_spec (Z.of_nat (S trial)) 2); [lia|reflexivity].
  - pose proof (Hfail O ltac:(lia)) as Hfirst. rewrite Nat.add_0_r in Hfirst.
    destruct (Receive trial) as [code0 chunk0]. simpl in Hfirst. subst code0.
    simpl.
    replace (Z.of_nat (S trial) <=? 2) with true by (symmetry; apply Z.leb_le; lia).
    apply (IH fuel (S trial)); try lia.
    + intros j Hj. replace (S trial + j)%nat with (trial + S j)%nat by lia.
      apply Hfail. lia.
    + replace (S trial + k)%nat with (trial + S k)%nat by lia. exact Hcode.
    + replace (S trial + k)%nat with (trial + S k)%nat by lia. exact Hlast.
Qed.

(** X16. When the request has been sent but no chunk arrives -- a receive
    fails with a code other than -1, or the third receive in a row returns
    -1 -- the kernel returns true although the engine has processed
    nothing: the worker's run loop goes on and asks again. *)
Theorem Kernel_no_answer statuschannel sendcode Receive mcEngine (k : nat) :
  match statuschannel with
  | Some poll =>
      isWorkAvailable state_code (poll_sendcode poll) (poll_code poll)
        (poll_state poll) = true
  | None => True
  end ->
  0 < sendcode ->
  (k <= 2)%nat ->
  (forall j, (j < k)%nat -> (Receive j).1 = -1) ->
  (Receive k).1 <= 0 ->
  (Receive k).1 <> -1 \/ k = 2%nat ->
  Kernel state_code statuschannel sendcode Receive mcEngine
  = (true, [setSimDataChannel]).
Proof.
  intros Hstatus Hsend Hk Hfail Hcode Hlast.
  unfold Kernel.
  replace (negb _) with false.
  2:{ destruct statuschannel; [rewrite Hstatus|]; reflexivity. }
  destruct (Z.ltb_spec 0 sendcode); [|lia].
  rewrite (receive_loop_no_answer mcEngine Receive k 3 0); try done; lia.
Qed.

End KernelEdges.

(** X14 for two channels which differ from the fourth receive on. *)
Lemma Kernel_three_receives_witness :
  let Receive' := fun trial : nat =>
    match trial with
    | 3%nat => (-1, one_primary_chunk)
    | _ => second_receive trial
    end in
  (forall k, (k <= 2)%nat -> second_receive k = Receive' k) /\
  Kernel code_in_order None 1 second_receive "TGeant3"
  = Kernel code_in_order None 1 Receive' "TGeant3" /\
  forall fuel, (3 <= fuel)%nat ->
    receive_loop fuel "TGeant3" second_receive 0
    = receive_loop 3 "TGeant3" Receive' 0.
Proof.
  intros Receive'.
  assert (Hagree : forall k, (k <= 2)%nat -> second_receive k = Receive' k).
  { intros [|[|[|k]]] Hk; try reflexivity. lia. }
  split; [exact Hagree|].
  exact (Kernel_three_receives code_in_order None 1 second_receive Receive'
           "TGeant3" Hagree).
Defined.

(** X16 for a channel on which every receive returns -1. *)
Lemma Kernel_no_answer_witness :
  let Receive := fun _ : nat => (-1, one_primary_chunk) in
  (True /\ 0 < 1 /\ (2 <= 2)%nat /\
   (forall j, (j < 2)%nat -> (Receive j).1 = -1) /\
   (Receive 2%nat).1 <= 0 /\
   ((Receive 2%nat).1 <> -1 \/ 2%nat = 2%nat)) /\
  Kernel code_in_order None 1 Receive "TGeant4" = (true, [setSimDataChannel]).
Proof.
  intros Receive.
  assert (Hfail : forall j, (j < 2)%nat -> (Receive j).1 = -1)
    by (intros j _; reflexivity).
  assert (Hcode : (Receive 2%nat).1 <= 0) by (simpl; lia).
  split; [repeat split; try done; by right|].
  exact (Kernel_no_answer code_in_order None 1 Receive "TGeant4" 2
           I eq_refl (le_n 2) Hfail Hcode (or_intror eq_refl)).
Defined.

(** ** Server and worker together *)

Section EndToEnd.
Context `{External}.
Variable state_code : O2PrimaryServerState -> Z.

(** X17. The reply which the server sends to a "primrequest" makes the
    worker's kernel return false exactly when the server had no work (the
    event limit reached and a new event due); any other reply is handed to
    the engine, with the seed which the server has put into it.  The event
    counter is taken to be a non-negative [int]. *)
Theorem kernel_on_server_reply (d : Device) code more out d' sendcode rc mcEngine :
  HandleRequest "primrequest" code d = Ok (more, out, d') ->
  0 <= mEventCounter d <= INT_MAX ->
  0 < sendcode ->
  0 < rc ->
  exists m,
    sent_chunks out = [m] /\
    let result := Kernel state_code None sendcode (fun _ => (rc, m)) mcEngine in
    (result.1 = false <->
     mMaxEvents d <= mEventCounter d /\ mNeedNewEvent d = true) /\
    (result.1 = true ->
     result.2 = [setSimDataChannel; setPrimaries (mParticles m);
                 setSubEventInfo (mSubEventInfo m);
                 SetSeed (to_int (mEventCounter d' + mInitialSeed d));
                 if String.eqb mcEngine "TGeant4" then ProcessEvent
                 else ProcessRun 1]).
Proof.
  intros Hreq Hec Hsend Hrc.
  destruct (HandleRequest_inv _ _ _ _ _ Hreq)
    as (d1 & ps & Hd1 & Hcopy & Hsent & _ & _ & Hnowork).
  destruct (HandleRequest_setup _ _ _ _ _ _ Hreq)
    as [(_ & _ & _ & Hseed & _) Hcounter].
  cbv zeta in Hcopy, Hsent, Hnowork. simpl in Hcounter.
  eexists. split; [exact Hsent|]. cbv zeta.
  set (workavailable := negb ((mMaxEvents d <=? mEventCounter d) && mNeedNewEvent d))
    in *.
  set (d2 := if mNeedNewEvent d then start_event d1 else d) in *.
  set (m := {| mSubEventInfo := chunk_info workavailable d2; mParticles := ps |}).
  assert (Hloop : receive_loop 3 mcEngine (fun _ => (rc, m)) 0
                  = if is_sentinel m then (false, [])
                    else (true, process_chunk mcEngine m)).
  { apply (receive_loop_chunk mcEngine _ 0 3 0 rc m); try lia; done. }
  unfold Kernel. simpl negb. cbv iota.
  destruct (Z.ltb_spec 0 sendcode); [|lia].
  rewrite Hloop.
  assert (Hcounter2 : mEventCounter d2 = mEventCounter d').
  { rewrite Hcounter. unfold d2.
    destruct (mNeedNewEvent d) eqn:Hneed; [|reflexivity].
    simpl. destruct Hd1 as [o Hjoin].
    destruct (join_frame _ _ _ _ Hjoin) as (_ & _ & _ & _ & _ & _ & _ & _ & ->).
    reflexivity. }
  assert (Hpos : 0 <= mEventCounter d2 <= INT_MAX \/ mEventCounter d2 = INT_MIN).
  { rewrite Hcounter2, Hcounter.
    destruct (mNeedNewEvent d); [|lia].
    unfold to_int, INT_MAX, INT_MIN in *.
    destruct (Z.eq_dec (mEventCounter d) 2147483647) as [->|]; [by right|].
    left. rewrite Z.mod_small; lia. }
  assert (Hwa : workavailable = false <->
            mMaxEvents d <= mEventCounter d /\ mNeedNewEvent d = true).
  { unfold workavailable. rewrite negb_false_iff, andb_true_iff, Z.leb_le. done. }
  assert (Hsentinel : is_sentinel m = true <-> workavailable = false).
  { rewrite is_sentinel_spec. unfold m. simpl. split.
    - intros [_ Hid]. destruct workavailable; [|reflexivity].
      unfold INT_MIN in *. lia.
    - intros Hno. rewrite Hno in *. split; [exact Hcopy|reflexivity]. }
  destruct (is_sentinel m) eqn:Hsent_m; simpl.
  - split; [|discriminate]. rewrite <- Hwa, <- Hsentinel. done.
  - split.
    + rewrite <- Hwa, <- Hsentinel. split; [discriminate|done].
    + intros _. unfold process_chunk, m, chunk_info. simpl.
      do 4 f_equal.
      assert (Hseed2 : mInitialSeed d2 = mInitialSeed d).
      { unfold d2. destruct (mNeedNewEvent d); [|reflexivity]. simpl.
        destruct Hd1 as [o Hjoin].
        by destruct (join_frame _ _ _ _ Hjoin) as (_ & _ & _ & _ & _ & _ & -> & _). }
      by rewrite Hcounter2, Hseed2.
Qed.

End EndToEnd.

(** X17 on the first request after the start. *)
Lemma kernel_on_server_reply_witness :
  let d := after_start (H := scripted [[1; 2; 3]]%nat) (options "pythia8" 2 2 false) in
  exists more out d',
    (HandleRequest "primrequest" 1 d = Ok (more, out, d') /\
     0 <= mEventCounter d <= INT_MAX /\ 0 < 1 /\ 0 < 40) /\
    exists m,
      sent_chunks out = [m] /\
      let result := Kernel code_in_order None 1 (fun _ => (40, m)) "TGeant4" in
      (result.1 = false <->
       mMaxEvents d <= mEventCounter d /\ mNeedNewEvent d = true) /\
      (result.1 = true ->
       result.2 = [setSimDataChannel; setPrimaries (mParticles m);
                   setSubEventInfo (mSubEventInfo m);
                   SetSeed (to_int (mEventCounter d' + mInitialSeed d));
                   if String.eqb "TGeant4" "TGeant4" then ProcessEvent
                   else ProcessRun 1]).
Proof.
  intros d.
  destruct (HandleRequest "primrequest" 1 d) as [[[more out] d']|] eqn:Hreq;
    [|discriminate Hreq].
  assert (Hec : 0 <= mEventCounter d <= INT_MAX) by (vm_compute; split; discriminate).
  exists more, out, d'. split; [by repeat split|].
  exact (kernel_on_server_reply code_in_order d 1 more out d' 1 40 "TGeant4"
           Hreq Hec eq_refl eq_refl).
Defined.
